(** * Esprit Connect job scraper: the discovery and extraction engine

    A shallow embedding of [esprit_job_scraper.py] (class [EspritJobScraper]
    and the [JobPosting] dataclass) together with the properties of the
    walk over job IDs, the page classifier, the selector fallback chains,
    the empty-record failsafe and the resumable cursor.

    Conventions of the embedding.
    - A Python [str] is a [string]; a character stands for a code point
      below 256, so the case mapping and the whitespace class are those
      Python has on that range.
    - A Python [int] is a [Z].
    - [Optional[str]] is [option string]; Python truthiness is written out
      ([truthy]).
    - The browser, the clock, the login form and the outcome of
      rendering the feeds (it returns or it raises) are an oracle
      ([World]); the files the engine reads and writes, the browser
      history and the scraper object's attributes are fields of an
      explicit [Machine] state threaded through the methods.
    - BeautifulSoup is an interface: a parsed page ([Soup]) answers the
      queries the scraper makes of it. *)

From Stdlib Require Import ZArith String Ascii DecimalString Lia.
From stdpp Require Import base gmap strings list sorting.

Open Scope Z_scope.

(** ** Python string primitives *)

Module PyStr.

(** [str.isspace] on one character (code points below 256). *)
Definition isspace (c : ascii) : bool :=
  let n := Z.of_N (N_of_ascii c) in
  ((9 <=? n) && (n <=? 13)) || ((28 <=? n) && (n <=? 32))
  || (n =? 133) || (n =? 160).

(** [str.lower] on one character: A-Z and the Latin-1 capitals. *)
Definition lower_char (c : ascii) : ascii :=
  let n := Z.of_N (N_of_ascii c) in
  if ((65 <=? n) && (n <=? 90))
     || ((192 <=? n) && (n <=? 222) && negb (n =? 215))
  then ascii_of_N (Z.to_N (n + 32))
  else c.

Fixpoint lower (s : string) : string :=
  match s with
  | EmptyString => EmptyString
  | String c s' => String (lower_char c) (lower s')
  end.

Fixpoint lstrip (s : string) : string :=
  match s with
  | EmptyString => EmptyString
  | String c s' => if isspace c then lstrip s' else s
  end.

Fixpoint rstrip (s : string) : string :=
  match s with
  | EmptyString => EmptyString
  | String c s' =>
      match rstrip s' with
      | EmptyString => if isspace c then EmptyString else String c EmptyString
      | r => String c r
      end
  end.

(** [s.strip()] *)
Definition strip (s : string) : string := rstrip (lstrip s).

(** [s.startswith(p)] *)
Fixpoint startswith (s p : string) {struct p} : bool :=
  match p, s with
  | EmptyString, _ => true
  | String a p', String b s' => Ascii.eqb a b && startswith s' p'
  | String _ _, EmptyString => false
  end.

(** [s.endswith(suf)] *)
Fixpoint endswith (s suf : string) : bool :=
  String.eqb s suf
  || match s with
     | EmptyString => false
     | String _ s' => endswith s' suf
     end.

(** [sub in s] *)
Fixpoint contains (s sub : string) : bool :=
  startswith s sub
  || match s with
     | EmptyString => false
     | String _ s' => contains s' sub
     end.

(** [s[:n]] for a non-negative bound *)
Fixpoint slice_to (n : nat) (s : string) : string :=
  match n, s with
  | O, _ => EmptyString
  | S _, EmptyString => EmptyString
  | S n', String c s' => String c (slice_to n' s')
  end.

(** [len(s)] *)
Definition len (s : string) : Z := Z.of_nat (String.length s).

(** truth value of a [str] *)
Definition truthy (s : string) : bool := negb (String.eqb s "").

(** [s in l] for a list of strings *)
Definition in_list (s : string) (l : list string) : bool :=
  existsb (String.eqb s) l.

(** [f"{n}"] for an [int] *)
Definition format_int (n : Z) : string :=
  NilZero.string_of_int (Z.to_int n).

(** [sep.join(l)] with the empty separator *)
Definition join (l : list string) : string :=
  foldr String.append EmptyString l.

End PyStr.

(** ** Page classifier *)

(** [is_redirected_to_home]: the URL the browser ended on, against the
    site's base URL ([self.base_url]). *)
Definition is_redirected_to_home (base_url current_url : string) : bool :=
  PyStr.endswith current_url "/feed"
  || PyStr.endswith current_url "/"
  || PyStr.endswith current_url "/jobs"
  || negb (PyStr.contains current_url "/jobs/")
  || String.eqb current_url base_url
  || String.eqb current_url (base_url +:+ "/")
  || String.eqb current_url (base_url +:+ "/feed").

(** ** Parsed pages (the BeautifulSoup interface) *)

(** An element of a parsed page, as far as the scraper looks at it: the
    text nodes below it in document order, and its attributes. *)
Record Element := mkElement {
  el_strings : list string;
  el_attrs : list (string * string)
}.

(** [element.get_text(strip=True)]: every text node is stripped, the ones
    left empty are dropped, the rest are concatenated. *)
Definition get_text_strip (e : Element) : string :=
  PyStr.join (List.filter PyStr.truthy (map PyStr.strip (el_strings e))).

(** [element.get(name)] *)
Fixpoint attr_get (attrs : list (string * string)) (name : string)
  : option string :=
  match attrs with
  | [] => None
  | (k, v) :: rest => if String.eqb k name then Some v else attr_get rest name
  end.

Definition el_get (e : Element) (name : string) : option string :=
  attr_get (el_attrs e) name.

(** The queries [extract_job_data] makes of a parsed page:
    - [select_one selector]: first element matching a CSS selector;
    - [find_text label]: [soup.find(text=lambda t: t and label in t)], the
      first text node containing the label;
    - [added_by_parent]: the container of the [h4.gw-section-caption]
      heading "Added by", given by its own [select_one], when the heading
      and its parent exist. *)
Record Soup := mkSoup {
  select_one : string -> option Element;
  find_text : string -> option string;
  added_by_parent : option (string -> option Element)
}.

(** ** The JobPosting dataclass *)

Record JobPosting := mkJobPosting {
  job_id : Z;
  title : string;
  company : string;
  location : string;
  description : string;
  requirements : string;
  posted_date : string;
  url : string;
  image_url : option string;
  company_logo_url : option string;
  employment_type : option string;
  industry : option string;
  job_function : option string;
  closing_date : option string;
  added_by_name : option string;
  added_by_company : option string;
  scraped_at : string
}.

(** [__post_init__]: an empty [scraped_at] is replaced by the current
    time. *)
Definition __post_init__ (timestamp : string) (self : JobPosting)
  : JobPosting :=
  if negb (PyStr.truthy (scraped_at self)) then
    mkJobPosting (job_id self) (title self) (company self) (location self)
      (description self) (requirements self) (posted_date self) (url self)
      (image_url self) (company_logo_url self) (employment_type self)
      (industry self) (job_function self) (closing_date self)
      (added_by_name self) (added_by_company self) timestamp
  else self.

(** ** Field extractor *)

(** [_extract_text_by_selectors]: the default is a [str] or [None], so
    the result is an [Optional[str]]. *)
Fixpoint _extract_text_by_selectors (soup : Soup) (selectors : list string)
  (default : option string) : option string :=
  match selectors with
  | [] => default
  | selector :: rest =>
      match select_one soup selector with
      | Some element =>
          if PyStr.truthy (get_text_strip element)
          then Some (get_text_strip element)
          else _extract_text_by_selectors soup rest default
      | None => _extract_text_by_selectors soup rest default
      end
  end.

(** ** Record validator *)

(** [sum] of a list of booleans *)
Definition py_sum (l : list bool) : Z := foldr (fun b acc => Z.b2z b + acc) 0 l.

Definition _is_empty_job (job : JobPosting) : bool :=
  let empty_indicators := [
    negb (PyStr.truthy (title job))
    || String.eqb (PyStr.strip (title job)) ""
    || PyStr.in_list (PyStr.lower (title job))
         ["unknown"; "no title"; "unknown title"];
    negb (PyStr.truthy (company job))
    || String.eqb (PyStr.strip (company job)) ""
    || PyStr.in_list (PyStr.lower (company job))
         ["unknown"; "unknown company"; "no company"];
    negb (PyStr.truthy (description job))
    || String.eqb (PyStr.strip (description job)) ""
    || PyStr.in_list (PyStr.lower (description job))
         ["no description available"; "no description"; "unknown description"]
    || (PyStr.len (PyStr.strip (description job)) <? 20)
  ] in
  2 <=? py_sum empty_indicators.

(** ** The scraper object and its surroundings *)

(** [self.initial_job_id] and [self.base_url], constants set by
    [__init__]. *)
Definition initial_job_id : Z := 795.
Definition base_url : string := "https://espritconnect.com".

(** The address of a job page: [f"{self.base_url}/jobs/{job_id}"]. *)
Definition job_page_url (job_id : Z) : string :=
  base_url +:+ "/jobs/" +:+ PyStr.format_int job_id.

(** What a navigation to a URL gives: an exception somewhere in the
    fetch, or the URL the browser ended on and the parsed page source. *)
Inductive Fetch :=
| FetchRaises
| FetchPage (current_url : string) (page_source : Soup).

(** The outside of the engine: the login form, the site behind the
    browser, the clock ([now k] is the k-th reading the engine takes of
    [datetime.now().isoformat()]), and the outcome of rendering the feeds
    of a list of saved records: [feeds_raise jobs] tells whether
    [generate_all_feeds] raises on them (the XML parser it ends with
    rejects some characters of a record's text). *)
Record World := mkWorld {
  login_ok : bool;
  browse : string -> Fetch;
  now : nat -> string;
  feeds_raise : list JobPosting -> bool
}.

(** The cursor file. [SF_unreadable] is any content on which the reading
    code raises. *)
Record StateDoc := mkStateDoc {
  last_job_id : option Z;
  last_updated : option string;
  total_runs : option Z
}.

Inductive StateFile :=
| SF_absent
| SF_unreadable
| SF_json (state : StateDoc).

(** A raw-records file; each stored object is given by its [job_id] key
    (if it has one), the only key the engine reads back. *)
Inductive DataFile :=
| DF_absent
| DF_unreadable
| DF_jobs (jobs : list (option Z)).

Record Disk := mkDisk {
  state_file : StateFile;        (* scraper_state.json *)
  data_jobs_raw : DataFile;      (* data/jobs_raw.json *)
  jobs_raw : DataFile            (* jobs_raw.json *)
}.

(** The scraper's attributes, the disk, the clock position and the
    browser's navigation history (oldest first). File writes succeed. *)
Record Machine := mkMachine {
  current_job_id : Z;
  jobs_scraped : list JobPosting;
  existing_job_ids : gset Z;
  disk : Disk;
  clock : nat;
  history : list string
}.

Definition set_current_job_id (v : Z) (m : Machine) : Machine :=
  mkMachine v (jobs_scraped m) (existing_job_ids m) (disk m) (clock m)
    (history m).

Definition set_disk (d : Disk) (m : Machine) : Machine :=
  mkMachine (current_job_id m) (jobs_scraped m) (existing_job_ids m) d
    (clock m) (history m).

Definition tick (m : Machine) : Machine :=
  mkMachine (current_job_id m) (jobs_scraped m) (existing_job_ids m) (disk m)
    (S (clock m)) (history m).

Definition navigate (target : string) (m : Machine) : Machine :=
  mkMachine (current_job_id m) (jobs_scraped m) (existing_job_ids m) (disk m)
    (clock m) (history m ++ [target]).

(** [self.jobs_scraped.append(job); self.existing_job_ids.add(job.job_id)] *)
Definition accept (job : JobPosting) (m : Machine) : Machine :=
  mkMachine (current_job_id m) (jobs_scraped m ++ [job])
    ({[job_id job]} ∪ existing_job_ids m) (disk m) (clock m) (history m).

(** ** Cursor store *)

Definition load_last_job_id (d : Disk) : Z :=
  match state_file d with
  | SF_json state =>
      match last_job_id state with
      | Some last_id => last_id
      | None => initial_job_id
      end
  | SF_absent => initial_job_id
  | SF_unreadable => initial_job_id
  end.

Definition save_last_job_id (w : World) (m : Machine) (job_id : Z)
  : Machine :=
  let stamp := now w (clock m) in
  let runs :=
    match state_file (disk m) with
    | SF_json existing_state =>
        match total_runs existing_state with
        | Some n => n + 1
        | None => 0 + 1
        end
    | SF_unreadable => 1
    | SF_absent => 1
    end in
  let state := mkStateDoc (Some job_id) (Some stamp) (Some runs) in
  tick (set_disk (mkDisk (SF_json state) (data_jobs_raw (disk m))
                    (jobs_raw (disk m))) m).

(** ** Duplicate index *)

Fixpoint job_ids_of (jobs : list (option Z)) : gset Z :=
  match jobs with
  | [] => ∅
  | Some i :: rest => {[i]} ∪ job_ids_of rest
  | None :: rest => job_ids_of rest
  end.

(** The loop of [load_existing_job_ids] over the candidate files: the
    first file that exists, parses and holds a non-empty array is used. *)
Fixpoint load_ids_from (data_files : list DataFile) : gset Z :=
  match data_files with
  | [] => ∅
  | DF_jobs (j :: jobs) :: _ => job_ids_of (j :: jobs)
  | _ :: rest => load_ids_from rest
  end.

Definition load_existing_job_ids (d : Disk) : gset Z :=
  load_ids_from [data_jobs_raw d; jobs_raw d].

(** [EspritJobScraper.__init__] on a given disk. *)
Definition __init__ (d : Disk) : Machine :=
  let current := load_last_job_id d in
  let existing := load_existing_job_ids d in
  let current :=
    if current >? initial_job_id then current - 1 else current in
  mkMachine current [] existing d 0 [].

(** [login]: opens the site's home page; the outcome is the form's. *)
Definition login (w : World) (m : Machine) : bool * Machine :=
  (login_ok w, navigate (base_url +:+ "/") m).

(** [save_results]: the raw-records file is rewritten with this run's
    records; the summary takes one reading of the clock. The summary and
    feed files themselves are renderings and are not kept; an exception
    of the feed generator is caught here ([try ... except Exception]). *)
Definition save_results (m : Machine) : Machine :=
  tick (set_disk (mkDisk (state_file (disk m))
                    (DF_jobs (map (fun job => Some (job_id job))
                                (jobs_scraped m)))
                    (jobs_raw (disk m))) m).

(** ** Extraction of one job page *)

Definition title_selectors : list string :=
  ["#jobPageJobTitle"; "h2#jobPageJobTitle"; "h1.job-title"; ".job-header h1";
   ".job-details h1"; "h1"; "h2"; ".title"].
Definition company_selectors : list string :=
  ["#jobPageOrganization_0"; "p#jobPageOrganization_0"; ".company-name";
   ".job-company"; ".employer"; ".company"].
Definition location_selectors : list string :=
  ["#jobPageJobFunction_0"; "p#jobPageJobFunction_0"; ".job-location";
   ".location"; ".job-address"].
Definition description_selectors : list string :=
  ["#jobPageDescription"; "div#jobPageDescription"; ".job-description";
   ".description"; ".job-content"; ".content"].
Definition requirements_selectors : list string :=
  [".job-requirements"; ".requirements"; ".job-qualifications";
   ".qualifications"].
Definition date_selectors : list string :=
  [".posted-date"; ".job-date"; ".publication-date"].
Definition image_selectors : list string :=
  [".job-image img"; ".company-logo img"; ".job-header img"].
Definition company_logo_selectors : list string :=
  [".gw-company-logo img"; ".company-logo-position"].
Definition employment_type_selectors : list string :=
  ["#jobPageOrganization_2"; "p#jobPageOrganization_2"].
Definition industry_selectors : list string :=
  ["#jobPageJobFunction_2"; "p#jobPageJobFunction_2"].
Definition actual_location_selectors : list string :=
  [".location-address"; ".location-icon-text"].

(** Truth value of an [Optional[str]]. *)
Definition opt_truthy (o : option string) : bool :=
  match o with
  | Some s => PyStr.truthy s
  | None => false
  end.

(** [x.strip()] on an [Optional[str]]: on [None] the call raises, which
    is the [None] of the option monad. *)
Definition method_strip (o : option string) : option string :=
  s ← o; Some (PyStr.strip s).

(** What [extract_job_data] returns: [None], the string "EMPTY_JOB_STOP",
    or a posting. *)
Inductive Extracted :=
| NoJob
| EMPTY_JOB_STOP
| Job (job : JobPosting).

Section Extraction.

(** [urllib.parse.urljoin], on the addresses for which it returns. *)
Variable urljoin : string -> string -> string.

Fixpoint _extract_image_url (soup : Soup) (selectors : list string)
  : option string :=
  match selectors with
  | [] => None
  | selector :: rest =>
      match select_one soup selector with
      | Some img =>
          match el_get img "src" with
          | Some src =>
              if PyStr.truthy src then
                if PyStr.startswith src "http" then Some src
                else Some (urljoin base_url src)
              else _extract_image_url soup rest
          | None => _extract_image_url soup rest
          end
      | None => _extract_image_url soup rest
      end
  end.

(** The part of [extract_job_data] between the redirect check and the
    emptiness check: the selector chains, the two free-text lookups and
    the [JobPosting] constructor call. [None] is an exception raised on
    the way. *)
Definition parse_job_page (timestamp : string) (soup : Soup) (job_id : Z)
  (job_url : string) : option JobPosting :=
  let title :=
    _extract_text_by_selectors soup title_selectors (Some "Unknown Title") in
  let company :=
    _extract_text_by_selectors soup company_selectors
      (Some "Unknown Company") in
  let location :=
    _extract_text_by_selectors soup location_selectors
      (Some "Unknown Location") in
  let description :=
    _extract_text_by_selectors soup description_selectors
      (Some "No description available") in
  let requirements :=
    _extract_text_by_selectors soup requirements_selectors
      (Some "No requirements specified") in
  let posted_date :=
    _extract_text_by_selectors soup date_selectors (Some "Unknown Date") in
  let image_url := _extract_image_url soup image_selectors in
  let company_logo_url := _extract_image_url soup company_logo_selectors in
  let employment_type :=
    _extract_text_by_selectors soup employment_type_selectors None in
  let industry :=
    _extract_text_by_selectors soup industry_selectors None in
  let actual_location :=
    _extract_text_by_selectors soup actual_location_selectors None in
  let closing_date :=
    match find_text soup "Closing date for applications:" with
    | Some closing_text =>
        if PyStr.truthy closing_text then Some (PyStr.strip closing_text)
        else None
    | None => None
    end in
  let added_by :=
    match added_by_parent soup with
    | Some parent =>
        (get_text_strip <$> parent ".gw-name",
         get_text_strip <$> parent ".gw-descr")
    | None => (None, None)
    end in
  title' ← method_strip title;
  company' ← method_strip company;
  location' ← (if opt_truthy actual_location then actual_location
               else method_strip location);
  description' ← method_strip description;
  requirements' ← method_strip requirements;
  posted_date' ← method_strip posted_date;
  Some (__post_init__ timestamp
          (mkJobPosting job_id title' company' location'
             (PyStr.slice_to 1000 description')
             (PyStr.slice_to 500 requirements')
             posted_date' job_url image_url company_logo_url
             employment_type industry
             (if opt_truthy actual_location then location else None)
             closing_date (fst added_by) (snd added_by) "")).

Definition extract_job_data (w : World) (m : Machine) (job_id : Z)
  : Extracted * Machine :=
  let job_url := job_page_url job_id in
  let m := navigate job_url m in
  match browse w job_url with
  | FetchRaises => (NoJob, m)
  | FetchPage current_url soup =>
      if is_redirected_to_home base_url current_url then (NoJob, m)
      else
        match parse_job_page (now w (clock m)) soup job_id job_url with
        | None => (NoJob, m)
        | Some job =>
            let m := tick m in
            if _is_empty_job job
            then (EMPTY_JOB_STOP, save_last_job_id w m job_id)
            else (Job job, m)
        end
  end.

(** ** The walk *)

(** How a stretch of the run ends: it completes, an exception leaves it,
    or the bound on the loop's iterations is used up. *)
Inductive Run :=
| Finished (m : Machine)
| Raised (m : Machine)
| OutOfFuel (m : Machine).

Definition machine_of (r : Run) : Machine :=
  match r with
  | Finished m => m
  | Raised m => m
  | OutOfFuel m => m
  end.

(** Both stopping branches of the loop, up to their [break]: when this
    run has collected any record, results are saved and the feeds are
    generated once more from the file just written. This second call of
    [generate_all_feeds] is not inside a [try]: when it raises, the
    exception leaves [scrape_jobs]. *)
Definition save_progress (w : World) (m : Machine) : Run :=
  match jobs_scraped m with
  | [] => Finished m
  | _ :: _ =>
      let m := save_results m in
      if feeds_raise w (jobs_scraped m) then Raised m else Finished m
  end.

(** The [else] branch of the loop body: duplicate check, then append.
    Returns the new machine and the new value of the local counter. *)
Definition keep_or_skip (job : JobPosting) (counter : Z) (m : Machine)
  : Machine * Z :=
  if bool_decide (job_id job ∈ existing_job_ids m) then (m, counter)
  else (accept job m, counter + 1).

(** The loop body for an ID whose extraction gave a record: the
    duplicate check, then [self.current_job_id += 1]. *)
Definition loop_body_job (job : JobPosting) (counter : Z) (m : Machine)
  : Machine * Z :=
  let (m, counter) := keep_or_skip job counter m in
  (set_current_job_id (current_job_id m + 1) m, counter).

(** The loop body run on a sequence of extracted records, one per
    iteration (a simulated feed). *)
Fixpoint feed (jobs : list JobPosting) (counter : Z) (m : Machine)
  : Machine * Z :=
  match jobs with
  | [] => (m, counter)
  | job :: rest =>
      let (m, counter) := loop_body_job job counter m in
      feed rest counter m
  end.

(** [while jobs_scraped < max_jobs: ...], with a bound on the number of
    iterations; [extract] is the call that produces the record for an ID
    ([self.extract_job_data]), [w] is the world the feeds are generated
    in. *)
Fixpoint scrape_loop (w : World)
  (extract : Machine -> Z -> Extracted * Machine)
  (fuel : nat) (max_jobs counter : Z) (m : Machine) : Run :=
  match fuel with
  | O => OutOfFuel m
  | S fuel' =>
      if counter <? max_jobs then
        let (job, m) := extract m (current_job_id m) in
        match job with
        | NoJob => save_progress w m
        | EMPTY_JOB_STOP => save_progress w m
        | Job job =>
            let (m, counter) := loop_body_job job counter m in
            scrape_loop w extract fuel' max_jobs counter m
        end
      else Finished m
  end.

(** The statement after the loop: "Save the last processed job ID for
    next run". *)
Definition save_after_loop (w : World) (start_id : Z) (m : Machine)
  : Machine :=
  if current_job_id m >? start_id
  then save_last_job_id w m (current_job_id m - 1)
  else m.

(** [scrape_jobs]: the returned list (when the call returns) and the
    final machine. A call that an exception leaves returns no list, and
    the statement after the loop is not run. *)
Definition scrape_jobs (w : World) (fuel : nat) (max_jobs : Z)
  (m : Machine) : option (list JobPosting) * Machine :=
  let (logged_in, m) := login w m in
  if negb logged_in then (Some [], m)
  else
    let start_id := current_job_id m in
    match scrape_loop w (extract_job_data w) fuel max_jobs 0 m with
    | OutOfFuel m => (None, m)
    | Raised m => (None, m)
    | Finished m =>
        let m := save_after_loop w start_id m in
        (Some (jobs_scraped m), m)
    end.

End Extraction.

(** What the spec's words mean for strings. *)
Definition ends_with (s suf : string) : Prop := exists p, s = p +:+ suf.
Definition has_substring (s sub : string) : Prop :=
  exists p q, s = p +:+ sub +:+ q.

(** A string made of whitespace only (the empty string included). *)
Definition blank (s : string) : Prop :=
  Forall (fun c => PyStr.isspace c = true) (list_ascii_of_string s).

(** No whitespace in front. *)
Definition no_lead (s : string) : Prop :=
  match s with
  | EmptyString => True
  | String c _ => PyStr.isspace c = false
  end.

(** Nothing to strip on either side. *)
Definition stripped (s : string) : Prop :=
  no_lead s /\ PyStr.rstrip s = s.

(** A string that is one of the known placeholders, whatever its case. *)
Definition known_placeholder (known : list string) (s : string) : Prop :=
  In (PyStr.lower s) known.

(** The three emptiness indicators of the record validator. *)
Definition title_indicator (job : JobPosting) : Prop :=
  blank (title job)
  \/ known_placeholder ["unknown"; "no title"; "unknown title"] (title job).

Definition company_indicator (job : JobPosting) : Prop :=
  blank (company job)
  \/ known_placeholder ["unknown"; "unknown company"; "no company"]
       (company job).

Definition description_indicator (job : JobPosting) : Prop :=
  blank (description job)
  \/ known_placeholder
       ["no description available"; "no description"; "unknown description"]
       (description job)
  \/ (String.length (PyStr.strip (description job)) < 20)%nat.

Definition at_least_two (A B C : Prop) : Prop :=
  (A /\ B) \/ (A /\ C) \/ (B /\ C).

(** Every record collected so far has its ID in the duplicate set. *)
Definition known_ids_cover (m : Machine) : Prop :=
  forall job, In job (jobs_scraped m) -> job_id job ∈ existing_job_ids m.

(** The records of a list that carry a given ID. *)
Definition records_with_id (i : Z) (jobs : list JobPosting)
  : list JobPosting :=
  List.filter (fun job => job_id job =? i) jobs.

(** A job URL that shows a real posting: the browser stays on a job
    page, and the record read from it is not classified empty. *)
Definition valid_job_page (urljoin : string -> string -> string) (w : World)
  (id : Z) : Prop :=
  exists current_url soup,
    browse w (job_page_url id) = FetchPage current_url soup
    /\ is_redirected_to_home base_url current_url = false
    /\ forall timestamp job,
         parse_job_page urljoin timestamp soup id (job_page_url id) = Some job ->
         _is_empty_job job = false.

(** The known IDs still ahead of the walk. *)
Definition ahead (m : Machine) : gset Z :=
  filter (fun i => current_job_id m <= i) (existing_job_ids m).

(** A locator yields text [t] on a page: it matches an element whose
    trimmed text is [t], and [t] is not empty. *)
Definition yields (soup : Soup) (selector t : string) : Prop :=
  exists element,
    select_one soup selector = Some element
    /\ get_text_strip element = t
    /\ t <> "".

(** A locator yields nothing: no element, or one with empty trimmed text. *)
Definition fails (soup : Soup) (selector : string) : Prop :=
  forall element,
    select_one soup selector = Some element -> get_text_strip element = "".

(** Two pages answer alike on a list of locators. *)
Definition same_answers (soup soup' : Soup) (selectors : list string) : Prop :=
  Forall (fun s => select_one soup' s = select_one soup s) selectors.

(** ** Scenarios

    Concrete pages, sites and disks on which the engine is run. *)

(** A stand-in for [urljoin] on paths that start with a slash. *)
Definition simple_urljoin (base src : string) : string := base +:+ src.

Definition text_element (s : string) : Element := mkElement [s] [].

Fixpoint lookup_selector (table : list (string * string)) (selector : string)
  : option Element :=
  match table with
  | [] => None
  | (k, v) :: rest =>
      if String.eqb k selector then Some (text_element v)
      else lookup_selector rest selector
  end.

(** A page on which each listed selector matches an element with the
    given text, and nothing else matches. *)
Definition page_of (table : list (string * string)) : Soup :=
  mkSoup (lookup_selector table) (fun _ => None) None.

Definition valid_page : Soup :=
  page_of [("#jobPageJobTitle", "Software Engineer");
           ("#jobPageOrganization_0", "Acme Corp");
           ("#jobPageDescription", "Build and maintain the data platform.")].

Definition empty_page : Soup := page_of [].

Definition second_only_page : Soup := page_of [(".job-company", " Acme ")].

Definition located_page : Soup :=
  page_of [("#jobPageJobTitle", "Software Engineer");
           ("#jobPageOrganization_0", "Acme Corp");
           ("#jobPageJobFunction_0", "Engineering");
           (".location-address", "Tunis");
           ("#jobPageDescription", "Build and maintain the data platform.")].

Fixpoint repeat_string (n : nat) (s : string) : string :=
  match n with
  | O => ""
  | S n' => s +:+ repeat_string n' s
  end.

(** A page whose description has 1500 characters and whose requirements
    have 800. *)
Definition long_page : Soup :=
  page_of [("#jobPageJobTitle", "Software Engineer");
           ("#jobPageOrganization_0", "Acme Corp");
           ("#jobPageDescription", repeat_string 150 "0123456789");
           (".requirements", repeat_string 80 "abcdefghij")].

Definition fixed_clock (k : nat) : string := "2024-01-01T00:00:00".

Definition no_files : Disk := mkDisk SF_absent DF_absent DF_absent.

(** Every list of records is rendered without an exception. *)
Definition feeds_rendered (jobs : list JobPosting) : bool := false.

(** Scenario A: valid pages at 795, 796 and 797; every other job URL
    redirects to the feed. *)
Definition site_A (u : string) : Fetch :=
  if String.eqb u (job_page_url 795) then FetchPage u valid_page
  else if String.eqb u (job_page_url 796) then FetchPage u valid_page
  else if String.eqb u (job_page_url 797) then FetchPage u valid_page
  else FetchPage (base_url +:+ "/feed") empty_page.

Definition world_A : World :=
  mkWorld true site_A fixed_clock feeds_rendered.

(** A valid page at 795, and pages with no recognisable content after
    it. *)
Definition site_B (u : string) : Fetch :=
  if String.eqb u (job_page_url 795) then FetchPage u valid_page
  else FetchPage u empty_page.

Definition world_B : World :=
  mkWorld true site_B fixed_clock feeds_rendered.

(** The fetch of 795 raises; every other job page is valid. *)
Definition site_C (u : string) : Fetch :=
  if String.eqb u (job_page_url 795) then FetchRaises
  else FetchPage u valid_page.

Definition world_C : World :=
  mkWorld true site_C fixed_clock feeds_rendered.

(** Scenario A with a feed generator that raises on whatever records it
    is given. *)
Definition feeds_fail (jobs : list JobPosting) : bool := true.

Definition world_A_feeds_fail : World :=
  mkWorld true site_A fixed_clock feeds_fail.

(** One page, with an address block, behind every job URL. *)
Definition world_located : World :=
  mkWorld true (fun u => FetchPage u located_page) fixed_clock
    feeds_rendered.

(** A record as extraction would hand it over for an ID. *)
Definition sample_job (i : Z) : JobPosting :=
  mkJobPosting i "Software Engineer" "Acme Corp" "Unknown Location"
    "Build and maintain the data platform." "No requirements specified"
    "Unknown Date" (job_page_url i) None None None None None None None None
    "2024-01-01T00:00:00".

(** The record for 795 fed to the loop body, then the one for 796, then
    the one for 795 again. *)
Definition fed_twice : Machine :=
  let after_first := loop_body_job (sample_job 795) 0 (__init__ no_files) in
  let after_between := feed [sample_job 796] after_first.2 after_first.1 in
  (loop_body_job (sample_job 795) after_between.2 after_between.1).1.

(** Earlier output that already holds a record for 795, and no cursor
    file. *)
Definition disk_with_795 : Disk :=
  mkDisk SF_absent (DF_jobs [Some 795]) DF_absent.

(** The same feed to a scraper constructed on that disk. *)
Definition fed_twice_known : Machine :=
  let after_first :=
    loop_body_job (sample_job 795) 0 (__init__ disk_with_795) in
  let after_between := feed [sample_job 796] after_first.2 after_first.1 in
  (loop_body_job (sample_job 795) after_between.2 after_between.1).1.

(** Complete runs from an empty disk, with the quota of [main]. *)
Definition run_A : option (list JobPosting) * Machine :=
  scrape_jobs simple_urljoin world_A 10 200 (__init__ no_files).
Definition run_B : option (list JobPosting) * Machine :=
  scrape_jobs simple_urljoin world_B 10 200 (__init__ no_files).
Definition run_C : option (list JobPosting) * Machine :=
  scrape_jobs simple_urljoin world_C 10 200 (__init__ no_files).

(** A cursor file left by an earlier run. *)
Definition disk_at_800 : Disk :=
  mkDisk (SF_json (mkStateDoc (Some 800) (Some "2024-01-01T00:00:00")
                     (Some 3)))
    DF_absent DF_absent.

(** ** The command-line runner (run_scraper.py) *)

(** The [--reset] block of [main]: the cursor file is removed when it
    exists; the raw-records files are not touched. *)
Definition reset_state (d : Disk) : Disk :=
  mkDisk SF_absent (data_jobs_raw d) (jobs_raw d).

(** The run count a cursor file carries into the next save: the stored
    [total_runs], or 0 when the key or a readable file is missing. *)
Definition previous_runs (d : Disk) : Z :=
  match state_file d with
  | SF_json state =>
      match total_runs state with
      | Some n => n
      | None => 0
      end
  | SF_absent => 0
  | SF_unreadable => 0
  end.

(** A machine that has collected one record. *)
Definition one_record_machine : Machine :=
  accept (sample_job 795) (__init__ disk_at_800).

(** ** The state of a walk

    What holds of the scraper between two iterations of a walk that
    started at ID [start], with duplicate set [known] and navigation
    history [visited], under the quota [max_jobs]; [counter] is the
    loop's local count of accepted records. *)

(** A record the walk may hold: its ID lies between the start and
    [bound], was not known before, and the record passed the validator
    and carries the address of its own page. *)
Definition collected (start bound : Z) (known : gset Z) (job : JobPosting)
  : Prop :=
  (start <= job_id job < bound)
  /\ (job_id job ∉ known)
  /\ _is_empty_job job = false
  /\ url job = job_page_url (job_id job).

Record walk_inv (start : Z) (known : gset Z) (visited : list string)
  (max_jobs counter : Z) (m : Machine) : Prop := mkWalkInv {
  inv_current : start <= current_job_id m;
  inv_existing :
    forall i, i ∈ existing_job_ids m
              <-> i ∈ known \/ In i (map job_id (jobs_scraped m));
  inv_records :
    Forall (collected start (current_job_id m) known) (jobs_scraped m);
  inv_sorted : StronglySorted Z.lt (map job_id (jobs_scraped m));
  inv_history :
    history m
    = visited ++ map job_page_url (seqZ start (current_job_id m - start));
  inv_counter : counter = Z.of_nat (length (jobs_scraped m));
  inv_quota : counter <= Z.max max_jobs 0
}.

(** What holds when the loop is left: as above, except that the page of
    the current ID has been fetched too when the loop stopped on it. *)
Record walk_post (start : Z) (known : gset Z) (visited : list string)
  (max_jobs : Z) (m : Machine) : Prop := mkWalkPost {
  post_current : start <= current_job_id m;
  post_existing :
    forall i, i ∈ existing_job_ids m
              <-> i ∈ known \/ In i (map job_id (jobs_scraped m));
  post_records :
    Forall (collected start (current_job_id m) known) (jobs_scraped m);
  post_sorted : StronglySorted Z.lt (map job_id (jobs_scraped m));
  post_history :
    exists n,
      history m = visited ++ map job_page_url (seqZ start n)
      /\ (n = current_job_id m - start \/ n = current_job_id m - start + 1);
  post_quota : Z.of_nat (length (jobs_scraped m)) <= Z.max max_jobs 0
}.

(** ** Further vocabulary *)



(** A locator gives an image address: it matches an element whose [src]
    attribute is [src], not empty. *)
Definition has_src (soup : Soup) (selector src : string) : Prop :=
  exists img,
    select_one soup selector = Some img
    /\ el_get img "src" = Some src
    /\ src <> "".

(** A locator gives no image address: no element, no [src] attribute, or
    an empty one. *)
Definition no_src (soup : Soup) (selector : string) : Prop :=
  forall img src,
    select_one soup selector = Some img ->
    el_get img "src" = Some src ->
    src = "".

(** A page with a logo given by a relative address and a picture given by
    an absolute one. *)
Definition image_page : Soup :=
  mkSoup (fun selector =>
            if String.eqb selector ".company-logo img"
            then Some (mkElement [] [("alt", "logo"); ("src", "/media/a.png")])
            else if String.eqb selector ".job-header img"
            then Some (mkElement [] [("src", "https://cdn.example/b.png")])
            else None)
    (fun _ => None) None.



(** ** Feed rendering helpers (generate_feeds.py) *)

(** [s[:i]] for any integer bound: a negative bound counts from the end
    of the string. *)
Definition py_slice_to (i : Z) (s : string) : string :=
  if i <? 0 then PyStr.slice_to (Z.to_nat (PyStr.len s + i)) s
  else PyStr.slice_to (Z.to_nat i) s.

(** The highest position of a character in a string whose first
    character has position [offset]; -1 when it does not occur. *)
Fixpoint rfind_from (c : ascii) (s : string) (offset : Z) : Z :=
  match s with
  | EmptyString => -1
  | String d s' =>
      let later := rfind_from c s' (offset + 1) in
      if 0 <=? later then later
      else if Ascii.eqb d c then offset else -1
  end.

(** [s.rfind(c, 0, stop)] for a one-character [c]. *)
Definition rfind (s : string) (c : ascii) (stop : Z) : Z :=
  rfind_from c (py_slice_to stop s) 0.

(** The text put between a description and the requirements in a feed
    summary: two line feeds and a label. *)
Definition requirements_label : string :=
  String "010" (String "010" "Requirements: ").

Section Feeds.

(** [last_space > max_length * 0.8], the comparison of an [int] with a
    [float]. *)
Variable above_four_fifths : Z -> Z -> bool.

Definition smart_truncate (text : string) (max_length : Z) : string :=
  if PyStr.len text <=? max_length then text
  else
    let last_space := rfind text " " max_length in
    if above_four_fifths last_space max_length
    then py_slice_to last_space text +:+ "..."
    else py_slice_to max_length text +:+ "...".

(** The summary of an item of the JSON feed, as [create_json_feed]
    computes it from the description and the requirements of a record. *)
Definition json_feed_summary (description requirements : string) : string :=
  let combined_text :=
    if (PyStr.len description <? 1000) && PyStr.truthy requirements
       && negb (String.eqb requirements "No requirements specified")
    then description +:+ requirements_label +:+ requirements
    else description in
  if PyStr.len combined_text <=? 1000 then combined_text
  else smart_truncate combined_text 1000.

(** The description paragraph of a card of the HTML index, as
    [create_html_index] computes it. *)
Definition html_card_description (description : string) : string :=
  smart_truncate description 1000.

End Feeds.

(** The comparison with four fifths, done exactly. *)
Definition exact_four_fifths (last_space max_length : Z) : bool :=
  4 * max_length <? 5 * last_space.

(** * Properties *)

Section StringFacts.

Lemma string_app_nil_l (s : string) : "" +:+ s = s.
Proof. reflexivity. Qed.

Lemma string_app_cons (c : ascii) (s t : string) :
  String c s +:+ t = String c (s +:+ t).
Proof. reflexivity. Qed.

Lemma startswith_spec (s p : string) :
  PyStr.startswith s p = true <-> exists q, s = p +:+ q.
Proof.
  revert s. induction p as [|a p IH]; intros s; simpl.
  - split; [intros _; exists s; reflexivity | reflexivity].
  - destruct s as [|b s].
    + split; [discriminate | intros [q Hq]; rewrite string_app_cons in Hq; discriminate].
    + rewrite andb_true_iff, Ascii.eqb_eq, IH. split.
      * intros [-> [q ->]]. exists q. reflexivity.
      * intros [q Hq]. rewrite string_app_cons in Hq. injection Hq as -> ->. eauto.
Qed.

Lemma endswith_nil (suf : string) :
  PyStr.endswith "" suf = String.eqb "" suf.
Proof. unfold PyStr.endswith. apply orb_false_r. Qed.

Lemma endswith_cons (c : ascii) (s suf : string) :
  PyStr.endswith (String c s) suf
  = String.eqb (String c s) suf || PyStr.endswith s suf.
Proof. reflexivity. Qed.

Lemma endswith_spec (s suf : string) :
  PyStr.endswith s suf = true <-> ends_with s suf.
Proof.
  unfold ends_with. induction s as [|c s IH].
  - rewrite endswith_nil, String.eqb_eq. split.
    + intros <-. exists "". reflexivity.
    + intros [p Hp]. destruct p; [exact Hp | rewrite string_app_cons in Hp; discriminate].
  - rewrite endswith_cons, orb_true_iff, String.eqb_eq, IH. split.
    + intros [<- | [p ->]]; [exists ""; reflexivity |].
      exists (String c p). reflexivity.
    + intros [p Hp]. destruct p as [|d p].
      * left. exact Hp.
      * rewrite string_app_cons in Hp. injection Hp as _ ->. right. eauto.
Qed.

Lemma contains_nil (sub : string) :
  PyStr.contains "" sub = PyStr.startswith "" sub.
Proof. unfold PyStr.contains. apply orb_false_r. Qed.

Lemma contains_cons (c : ascii) (s sub : string) :
  PyStr.contains (String c s) sub
  = PyStr.startswith (String c s) sub || PyStr.contains s sub.
Proof. reflexivity. Qed.

Lemma contains_spec (s sub : string) :
  PyStr.contains s sub = true <-> has_substring s sub.
Proof.
  unfold has_substring. induction s as [|c s IH].
  - rewrite contains_nil. split.
    + intros H. apply startswith_spec in H as [q Hq]. exists "", q. exact Hq.
    + intros [p [q H]]. destruct p; [|rewrite string_app_cons in H; discriminate].
      apply startswith_spec. eauto.
  - rewrite contains_cons, orb_true_iff, IH. split.
    + intros [H | [p [q ->]]].
      * apply startswith_spec in H as [q Hq]. exists "", q. exact Hq.
      * exists (String c p), q. reflexivity.
    + intros [p [q H]]. destruct p as [|d p].
      * left. apply startswith_spec. eauto.
      * rewrite string_app_cons in H. injection H as _ ->. right. eauto.
Qed.

End StringFacts.

(** C7. The page classifier reports a missing page exactly when the final
    URL equals the base URL, equals base+"/", equals base+"/feed", ends
    with "/feed", ends with "/", ends with "/jobs", or does not contain
    the substring "/jobs/". *)
Theorem is_redirected_to_home_iff (final_url base_url : string) :
  is_redirected_to_home base_url final_url = true <->
  (final_url = base_url
   \/ final_url = base_url +:+ "/"
   \/ final_url = base_url +:+ "/feed"
   \/ ends_with final_url "/feed"
   \/ ends_with final_url "/"
   \/ ends_with final_url "/jobs"
   \/ ~ has_substring final_url "/jobs/").
Proof.
  unfold is_redirected_to_home.
  rewrite !orb_true_iff, !endswith_spec, !String.eqb_eq, negb_true_iff.
  rewrite <- contains_spec, <- not_true_iff_false.
  tauto.
Qed.

(** ** Whitespace and stripping *)

Section StripFacts.

Lemma truthy_true (s : string) : PyStr.truthy s = true <-> s <> "".
Proof.
  unfold PyStr.truthy. rewrite negb_true_iff.
  destruct (String.eqb_spec s ""); split; congruence.
Qed.

Lemma truthy_false (s : string) : PyStr.truthy s = false <-> s = "".
Proof.
  unfold PyStr.truthy. rewrite negb_false_iff. apply String.eqb_eq.
Qed.

Lemma in_list_spec (s : string) (l : list string) :
  PyStr.in_list s l = true <-> In s l.
Proof.
  unfold PyStr.in_list. rewrite existsb_exists. split.
  - intros [x [Hin Heq]]. apply String.eqb_eq in Heq. congruence.
  - intros Hin. exists s. split; [exact Hin | apply String.eqb_refl].
Qed.

Lemma blank_nil : blank "".
Proof. constructor. Qed.

Lemma blank_cons (c : ascii) (s : string) :
  blank (String c s) <-> PyStr.isspace c = true /\ blank s.
Proof.
  unfold blank. simpl. split.
  - intros H. inversion H; subst. split; assumption.
  - intros [Hc Hs]. constructor; assumption.
Qed.

Lemma rstrip_cons (c : ascii) (s : string) :
  PyStr.rstrip (String c s)
  = match PyStr.rstrip s with
    | EmptyString =>
        if PyStr.isspace c then EmptyString else String c EmptyString
    | String d r => String c (String d r)
    end.
Proof. reflexivity. Qed.

Lemma rstrip_empty_iff (s : string) : PyStr.rstrip s = "" <-> blank s.
Proof.
  induction s as [|c s IH].
  - split; [intros _; apply blank_nil | reflexivity].
  - rewrite rstrip_cons, blank_cons, <- IH.
    destruct (PyStr.rstrip s) as [|d r], (PyStr.isspace c);
      split; try discriminate; try tauto; intros [? ?]; discriminate.
Qed.

Lemma lstrip_blank (s : string) : blank (PyStr.lstrip s) <-> blank s.
Proof.
  induction s as [|c s IH]; [reflexivity|].
  simpl. destruct (PyStr.isspace c) eqn:Hc; [|reflexivity].
  rewrite IH, blank_cons. tauto.
Qed.

Lemma strip_empty_iff (s : string) : PyStr.strip s = "" <-> blank s.
Proof. unfold PyStr.strip. rewrite rstrip_empty_iff. apply lstrip_blank. Qed.

End StripFacts.

(** ** Record validator *)

Section Validator.

Lemma indicator_spec (s : string) (known : list string) :
  (negb (PyStr.truthy s) || String.eqb (PyStr.strip s) ""
   || PyStr.in_list (PyStr.lower s) known) = true
  <-> blank s \/ known_placeholder known s.
Proof.
  rewrite !orb_true_iff, negb_true_iff, truthy_false, String.eqb_eq,
    strip_empty_iff, in_list_spec.
  unfold known_placeholder. split; [|tauto].
  intros [[-> | H] | H]; auto using blank_nil.
Qed.

Lemma py_sum_three (a b c : bool) :
  (2 <=? py_sum [a; b; c]) = true
  <-> at_least_two (a = true) (b = true) (c = true).
Proof.
  unfold at_least_two.
  destruct a, b, c; simpl; split; intros H; try reflexivity;
    try discriminate; try tauto;
    destruct H as [[? ?] | [[? ?] | [? ?]]]; discriminate.
Qed.

End Validator.

(** C3. A record is classified empty exactly when at least two of the
    three indicators hold: title blank or a known placeholder; company
    blank or a known placeholder; description blank, a known placeholder,
    or shorter than 20 characters after trimming. *)
Theorem is_empty_job_iff (job : JobPosting) :
  _is_empty_job job = true
  <-> at_least_two (title_indicator job) (company_indicator job)
        (description_indicator job).
Proof.
  unfold _is_empty_job. rewrite py_sum_three.
  unfold title_indicator, company_indicator, description_indicator.
  unfold at_least_two.
  rewrite !indicator_spec.
  rewrite (orb_true_iff _ (PyStr.len _ <? 20)), indicator_spec.
  unfold PyStr.len. rewrite Z.ltb_lt.
  assert (Hlen : forall n : nat, Z.of_nat n < 20 <-> (n < 20)%nat)
    by (intros; lia).
  rewrite Hlen. unfold at_least_two. tauto.
Qed.

(** ** Field extractor *)

Section Extractor.

Variable soup : Soup.

Lemma extract_text_miss (sel : string) (rest : list string)
  (default : option string) :
  fails soup sel ->
  _extract_text_by_selectors soup (sel :: rest) default
  = _extract_text_by_selectors soup rest default.
Proof.
  intros Hf. simpl. destruct (select_one soup sel) as [e|] eqn:He.
  - rewrite (Hf e He). reflexivity.
  - reflexivity.
Qed.

Lemma extract_text_hit (sel t : string) (rest : list string)
  (default : option string) :
  yields soup sel t ->
  _extract_text_by_selectors soup (sel :: rest) default = Some t.
Proof.
  intros [e [He [Ht Hne]]]. simpl. rewrite He, Ht.
  apply truthy_true in Hne. rewrite Hne. reflexivity.
Qed.

Lemma extract_text_skip (before rest : list string)
  (default : option string) :
  Forall (fails soup) before ->
  _extract_text_by_selectors soup (before ++ rest) default
  = _extract_text_by_selectors soup rest default.
Proof.
  induction 1 as [|sel before Hsel _ IH]; [reflexivity|].
  rewrite <- app_comm_cons, extract_text_miss by assumption. exact IH.
Qed.

Lemma extract_text_all_fail (selectors : list string)
  (default : option string) :
  Forall (fails soup) selectors ->
  _extract_text_by_selectors soup selectors default = default.
Proof.
  intros H. rewrite <- (app_nil_r selectors).
  rewrite extract_text_skip by assumption. reflexivity.
Qed.

(** The result is either a non-empty text found on the page or the
    default. *)
Lemma extract_text_cases (selectors : list string)
  (default : option string) :
  (exists sel t,
      In sel selectors /\ yields soup sel t
      /\ _extract_text_by_selectors soup selectors default = Some t)
  \/ _extract_text_by_selectors soup selectors default = default.
Proof.
  induction selectors as [|sel rest IH]; [right; reflexivity|].
  simpl. destruct (select_one soup sel) as [e|] eqn:He.
  - destruct (PyStr.truthy (get_text_strip e)) eqn:Ht.
    + left. exists sel, (get_text_strip e). split; [left; reflexivity|].
      split; [|reflexivity]. exists e. rewrite <- truthy_true. auto.
    + destruct IH as [[s [t [Hin [Hy Hr]]]] | IH]; [left | right; exact IH].
      exists s, t. split; [right; exact Hin | auto].
  - destruct IH as [[s [t [Hin [Hy Hr]]]] | IH]; [left | right; exact IH].
    exists s, t. split; [right; exact Hin | auto].
Qed.

End Extractor.

Lemma same_answers_fails (soup soup' : Soup) (selectors : list string) :
  same_answers soup soup' selectors ->
  Forall (fails soup) selectors -> Forall (fails soup') selectors.
Proof.
  unfold same_answers. rewrite !Forall_forall. intros Hs Hf sel Hin e He.
  apply (Hf sel Hin). rewrite <- (Hs sel Hin). exact He.
Qed.

Lemma same_answers_yields (soup soup' : Soup) (sel t : string) :
  select_one soup' sel = select_one soup sel ->
  yields soup sel t -> yields soup' sel t.
Proof. intros Hs [e [He H]]. exists e. rewrite Hs. auto. Qed.

(** C8. Text extraction returns the text of the first locator, in order,
    that matches an element with non-empty trimmed text, and the answer
    does not depend on what the page holds for the later locators; when
    no locator yields text it returns the default; in a chain of three
    locators of which only the second matches, the second's text is
    returned. *)
Theorem extract_text_first_match (soup : Soup) (selectors : list string)
  (default : option string) :
  (forall before sel after t,
      selectors = before ++ sel :: after ->
      Forall (fails soup) before ->
      yields soup sel t ->
      _extract_text_by_selectors soup selectors default = Some t
      /\ forall soup',
           same_answers soup soup' (before ++ [sel]) ->
           _extract_text_by_selectors soup' selectors default = Some t)
  /\ (Forall (fails soup) selectors ->
      _extract_text_by_selectors soup selectors default = default)
  /\ (forall s1 s2 s3 t,
        selectors = [s1; s2; s3] ->
        fails soup s1 -> yields soup s2 t -> fails soup s3 ->
        _extract_text_by_selectors soup selectors default = Some t).
Proof.
  split; [|split].
  - intros before sel after t -> Hbefore Hsel. split.
    + rewrite extract_text_skip by assumption.
      apply extract_text_hit. exact Hsel.
    + intros soup' Hsame. unfold same_answers in Hsame.
      apply Forall_app in Hsame as [Hsb Hss].
      rewrite extract_text_skip
        by (eapply same_answers_fails; eassumption).
      apply extract_text_hit. inversion Hss; subst.
      eapply same_answers_yields; eassumption.
  - apply extract_text_all_fail.
  - intros s1 s2 s3 t -> H1 H2 _.
    rewrite extract_text_miss by assumption.
    apply extract_text_hit. exact H2.
Qed.

Lemma extract_text_first_match_witness :
  _extract_text_by_selectors second_only_page
    [".company-name"; ".job-company"; ".employer"] (Some "Unknown Company")
  = Some "Acme".
Proof.
  destruct (extract_text_first_match second_only_page
              [".company-name"; ".job-company"; ".employer"]
              (Some "Unknown Company")) as [_ [_ Hthree]].
  apply (Hthree ".company-name" ".job-company" ".employer" "Acme").
  - reflexivity.
  - intros e He. vm_compute in He. discriminate He.
  - exists (text_element " Acme "). vm_compute.
    repeat split. discriminate.
  - intros e He. vm_compute in He. discriminate He.
Defined.

(** ** Stripped text *)

Section StrippedText.

Lemma string_app_nil_r (s : string) : s +:+ "" = s.
Proof. induction s as [|c s IH]; [reflexivity|]. rewrite string_app_cons, IH. reflexivity. Qed.

Lemma lstrip_no_lead (s : string) : no_lead (PyStr.lstrip s).
Proof.
  induction s as [|c s IH]; [exact I|].
  simpl. destruct (PyStr.isspace c) eqn:Hc; [exact IH | exact Hc].
Qed.

Lemma no_lead_lstrip (s : string) : no_lead s -> PyStr.lstrip s = s.
Proof. destruct s as [|c s]; [reflexivity|]. simpl. intros ->. reflexivity. Qed.

Lemma rstrip_cons_nonspace (c : ascii) (s : string) :
  PyStr.isspace c = false ->
  PyStr.rstrip (String c s) = String c (PyStr.rstrip s).
Proof.
  intros Hc. rewrite rstrip_cons, Hc. destruct (PyStr.rstrip s); reflexivity.
Qed.

Lemma rstrip_idem (s : string) :
  PyStr.rstrip (PyStr.rstrip s) = PyStr.rstrip s.
Proof.
  induction s as [|c s IH]; [reflexivity|].
  rewrite rstrip_cons. destruct (PyStr.rstrip s) as [|d r] eqn:Hr.
  - destruct (PyStr.isspace c) eqn:Hc; [reflexivity|].
    rewrite rstrip_cons_nonspace by assumption. reflexivity.
  - rewrite rstrip_cons, IH. reflexivity.
Qed.

Lemma no_lead_rstrip (s : string) : no_lead s -> no_lead (PyStr.rstrip s).
Proof.
  destruct s as [|c s]; [intros _; exact I|].
  intros Hc. simpl in Hc. rewrite rstrip_cons_nonspace by assumption.
  exact Hc.
Qed.

Lemma strip_stripped (s : string) : stripped (PyStr.strip s).
Proof.
  unfold stripped, PyStr.strip. split.
  - apply no_lead_rstrip, lstrip_no_lead.
  - apply rstrip_idem.
Qed.

Lemma stripped_strip (s : string) : stripped s -> PyStr.strip s = s.
Proof.
  intros [Hl Hr]. unfold PyStr.strip. rewrite no_lead_lstrip; assumption.
Qed.

Lemma rstrip_app (p q : string) :
  q <> "" -> PyStr.rstrip q = q -> PyStr.rstrip (p +:+ q) = p +:+ q.
Proof.
  intros Hne Hq. induction p as [|c p IH]; [exact Hq|].
  rewrite string_app_cons, rstrip_cons, IH.
  destruct (p +:+ q) as [|d r] eqn:Hpq; [|reflexivity].
  destruct p; [|rewrite string_app_cons in Hpq; discriminate].
  rewrite string_app_nil_l in Hpq. contradiction.
Qed.

Lemma stripped_app (p q : string) :
  p <> "" -> stripped p -> stripped q -> stripped (p +:+ q).
Proof.
  intros Hp [Hpl Hpr] [Hql Hqr].
  destruct q as [|d q]; [rewrite string_app_nil_r; split; assumption|].
  split.
  - destruct p as [|c p]; [contradiction | exact Hpl].
  - apply rstrip_app; [discriminate | exact Hqr].
Qed.

Lemma join_stripped (pieces : list string) :
  Forall (fun p => p <> "" /\ stripped p) pieces ->
  stripped (PyStr.join pieces).
Proof.
  induction 1 as [|p pieces [Hne Hp] _ IH].
  - split; [exact I | reflexivity].
  - simpl. apply stripped_app; assumption.
Qed.

Lemma get_text_strip_stripped (e : Element) : stripped (get_text_strip e).
Proof.
  unfold get_text_strip. apply join_stripped.
  apply Forall_forall. intros p Hp.
  apply list_elem_of_In, filter_In in Hp as [Hin Ht].
  apply truthy_true in Ht. split; [exact Ht|].
  apply in_map_iff in Hin as [s [<- _]]. apply strip_stripped.
Qed.

Lemma strip_get_text_strip (e : Element) :
  PyStr.strip (get_text_strip e) = get_text_strip e.
Proof. apply stripped_strip, get_text_strip_stripped. Qed.

Lemma slice_to_length (n : nat) (s : string) :
  (String.length (PyStr.slice_to n s) <= n)%nat.
Proof.
  revert s. induction n as [|n IH]; intros s; [simpl; lia|].
  destruct s as [|c s]; simpl; [lia|]. specialize (IH s). lia.
Qed.

End StrippedText.

(** ** Construction of a record from a page *)

Section Page.

Variable urljoin : string -> string -> string.

(** A chain with a string default always gives a string: a text found
    on the page, or the default. *)
Lemma extract_text_some (soup : Soup) (selectors : list string)
  (d : string) :
  exists t,
    _extract_text_by_selectors soup selectors (Some d) = Some t
    /\ (t = d \/ exists sel, In sel selectors /\ yields soup sel t).
Proof.
  destruct (extract_text_cases soup selectors (Some d))
    as [[sel [t [Hin [Hy Hr]]]] | Hr].
  - exists t. split; [exact Hr | right; eauto].
  - exists d. split; [exact Hr | left; reflexivity].
Qed.

(** A chain with default [None] gives [None] or a non-empty text found
    on the page. *)
Lemma extract_text_none_default (soup : Soup) (selectors : list string)
  (t : string) :
  _extract_text_by_selectors soup selectors None = Some t ->
  t <> "" /\ exists sel, In sel selectors /\ yields soup sel t.
Proof.
  intros H.
  destruct (extract_text_cases soup selectors None)
    as [[sel [t' [Hin [Hy Hr]]]] | Hr]; [|congruence].
  assert (t' = t) as -> by congruence.
  split; [|eauto]. destruct Hy as [e [_ [_ Hne]]]. exact Hne.
Qed.

Lemma yields_stripped (soup : Soup) (sel t : string) :
  yields soup sel t -> PyStr.strip t = t.
Proof. intros [e [_ [<- _]]]. apply strip_get_text_strip. Qed.

(** The record built from a page, given what the six chains with a
    string default return. *)
Lemma parse_job_page_eq (timestamp : string) (soup : Soup) (id : Z)
  (job_url t c l d r p : string) :
  _extract_text_by_selectors soup title_selectors (Some "Unknown Title")
  = Some t ->
  _extract_text_by_selectors soup company_selectors (Some "Unknown Company")
  = Some c ->
  _extract_text_by_selectors soup location_selectors
    (Some "Unknown Location") = Some l ->
  _extract_text_by_selectors soup description_selectors
    (Some "No description available") = Some d ->
  _extract_text_by_selectors soup requirements_selectors
    (Some "No requirements specified") = Some r ->
  _extract_text_by_selectors soup date_selectors (Some "Unknown Date")
  = Some p ->
  exists closing name affiliation,
    parse_job_page urljoin timestamp soup id job_url
    = Some (mkJobPosting id (PyStr.strip t) (PyStr.strip c)
              match _extract_text_by_selectors soup
                      actual_location_selectors None with
              | Some a => a
              | None => PyStr.strip l
              end
              (PyStr.slice_to 1000 (PyStr.strip d))
              (PyStr.slice_to 500 (PyStr.strip r))
              (PyStr.strip p) job_url
              (_extract_image_url urljoin soup image_selectors)
              (_extract_image_url urljoin soup company_logo_selectors)
              (_extract_text_by_selectors soup employment_type_selectors
                 None)
              (_extract_text_by_selectors soup industry_selectors None)
              match _extract_text_by_selectors soup
                      actual_location_selectors None with
              | Some _ => Some l
              | None => None
              end
              closing name affiliation timestamp).
Proof.
  intros Ht Hc Hl Hd Hr Hp. unfold parse_job_page.
  rewrite Ht, Hc, Hl, Hd, Hr, Hp.
  destruct (_extract_text_by_selectors soup actual_location_selectors None)
    as [a|] eqn:Ha.
  - apply extract_text_none_default in Ha as [Hne _].
    apply truthy_true in Hne. unfold opt_truthy. rewrite Hne.
    eexists _, _, _. reflexivity.
  - eexists _, _, _. reflexivity.
Qed.

(** Building a record never raises. *)
Lemma parse_job_page_total (timestamp : string) (soup : Soup) (id : Z)
  (job_url : string) :
  exists job, parse_job_page urljoin timestamp soup id job_url = Some job.
Proof.
  destruct (extract_text_some soup title_selectors "Unknown Title")
    as [t [Ht _]].
  destruct (extract_text_some soup company_selectors "Unknown Company")
    as [c [Hc _]].
  destruct (extract_text_some soup location_selectors "Unknown Location")
    as [l [Hl _]].
  destruct (extract_text_some soup description_selectors
              "No description available") as [d [Hd _]].
  destruct (extract_text_some soup requirements_selectors
              "No requirements specified") as [r [Hr _]].
  destruct (extract_text_some soup date_selectors "Unknown Date")
    as [p [Hp _]].
  destruct (parse_job_page_eq timestamp soup id job_url t c l d r p
              Ht Hc Hl Hd Hr Hp) as [x [y [z H]]].
  eauto.
Qed.

Lemma parse_job_page_job_id (timestamp : string) (soup : Soup) (id : Z)
  (job_url : string) (job : JobPosting) :
  parse_job_page urljoin timestamp soup id job_url = Some job ->
  job_id job = id.
Proof.
  destruct (extract_text_some soup title_selectors "Unknown Title")
    as [t [Ht _]].
  destruct (extract_text_some soup company_selectors "Unknown Company")
    as [c [Hc _]].
  destruct (extract_text_some soup location_selectors "Unknown Location")
    as [l [Hl _]].
  destruct (extract_text_some soup description_selectors
              "No description available") as [d [Hd _]].
  destruct (extract_text_some soup requirements_selectors
              "No requirements specified") as [r [Hr _]].
  destruct (extract_text_some soup date_selectors "Unknown Date")
    as [p [Hp _]].
  destruct (parse_job_page_eq timestamp soup id job_url t c l d r p
              Ht Hc Hl Hd Hr Hp) as [x [y [z H]]].
  rewrite H. intros [= <-]. reflexivity.
Qed.

(** What [extract_job_data] hands back as a record is the record built
    from the page fetched for that ID, found neither redirected nor
    empty. *)
Lemma extract_job_data_job (w : World) (m m' : Machine) (id : Z)
  (job : JobPosting) :
  extract_job_data urljoin w m id = (Job job, m') ->
  exists current_url soup,
    browse w (job_page_url id) = FetchPage current_url soup
    /\ is_redirected_to_home base_url current_url = false
    /\ parse_job_page urljoin (now w (clock m)) soup id (job_page_url id)
       = Some job
    /\ _is_empty_job job = false
    /\ m' = tick (navigate (job_page_url id) m).
Proof.
  unfold extract_job_data.
  destruct (browse w (job_page_url id)) as [|cur soup]; [discriminate|].
  destruct (is_redirected_to_home base_url cur) eqn:Hred; [discriminate|].
  simpl clock.
  destruct (parse_job_page _ _ soup id _) as [j|] eqn:Hj; [|discriminate].
  destruct (_is_empty_job j) eqn:He; [discriminate|].
  intros [= <- <-]. exists cur, soup. auto.
Qed.

End Page.

(** C9. Every record, at the moment it is constructed, has a description
    of at most 1000 characters and requirements of at most 500, whatever
    the page holds; so has every record [extract_job_data] returns. *)
Theorem field_caps (urljoin : string -> string -> string) :
  (forall timestamp soup id job_url job,
      parse_job_page urljoin timestamp soup id job_url = Some job ->
      (String.length (description job) <= 1000)%nat
      /\ (String.length (requirements job) <= 500)%nat)
  /\ (forall w m id job m',
        extract_job_data urljoin w m id = (Job job, m') ->
        (String.length (description job) <= 1000)%nat
        /\ (String.length (requirements job) <= 500)%nat).
Proof.
  assert (Hparse : forall timestamp soup id job_url job,
             parse_job_page urljoin timestamp soup id job_url = Some job ->
             (String.length (description job) <= 1000)%nat
             /\ (String.length (requirements job) <= 500)%nat).
  { intros timestamp soup id job_url job.
    destruct (extract_text_some soup title_selectors "Unknown Title")
      as [t [Ht _]].
    destruct (extract_text_some soup company_selectors "Unknown Company")
      as [c [Hc _]].
    destruct (extract_text_some soup location_selectors "Unknown Location")
      as [l [Hl _]].
    destruct (extract_text_some soup description_selectors
                "No description available") as [d [Hd _]].
    destruct (extract_text_some soup requirements_selectors
                "No requirements specified") as [r [Hr _]].
    destruct (extract_text_some soup date_selectors "Unknown Date")
      as [p [Hp _]].
    destruct (parse_job_page_eq urljoin timestamp soup id job_url t c l d r p
                Ht Hc Hl Hd Hr Hp) as [x [y [z H]]].
    rewrite H. intros Heq. apply (inj Some) in Heq. subst job.
    unfold description, requirements. split; apply slice_to_length. }
  split; [exact Hparse|].
  intros w m id job m' H.
  apply extract_job_data_job in H
    as [cur [soup [_ [_ [Hjob _]]]]].
  eapply Hparse. exact Hjob.
Qed.

Lemma field_caps_witness :
  exists job,
    parse_job_page simple_urljoin "2024-01-01T00:00:00" long_page 795
      (job_page_url 795) = Some job
    /\ String.length (repeat_string 150 "0123456789") = 1500%nat
    /\ String.length (repeat_string 80 "abcdefghij") = 800%nat
    /\ (String.length (description job) <= 1000)%nat
    /\ (String.length (requirements job) <= 500)%nat.
Proof.
  destruct (parse_job_page simple_urljoin "2024-01-01T00:00:00" long_page 795
              (job_page_url 795)) as [job|] eqn:Hjob.
  - exists job. split; [reflexivity|].
    split; [vm_compute; reflexivity|].
    split; [vm_compute; reflexivity|].
    exact (proj1 (field_caps simple_urljoin) _ _ _ _ _ Hjob).
  - vm_compute in Hjob. discriminate Hjob.
Defined.

(** C10. In a successfully extracted record: when the actual-location
    selectors matched non-empty text, the location is that text and the
    job function is the text of the location-selector chain; otherwise
    the location is the result of the location-selector chain (with its
    default "Unknown Location") and the job function is absent. *)
Theorem location_and_job_function (urljoin : string -> string -> string)
  (w : World) (m m' : Machine) (id : Z) (job : JobPosting)
  (current_url : string) (soup : Soup) :
  extract_job_data urljoin w m id = (Job job, m') ->
  browse w (job_page_url id) = FetchPage current_url soup ->
  let actual_location :=
    _extract_text_by_selectors soup actual_location_selectors None in
  let location_chain :=
    _extract_text_by_selectors soup location_selectors
      (Some "Unknown Location") in
  (forall t, actual_location = Some t ->
             t <> "" /\ location job = t /\ job_function job = location_chain)
  /\ (actual_location = None ->
      Some (location job) = location_chain /\ job_function job = None).
Proof.
  intros Hjob Hpage.
  apply extract_job_data_job in Hjob
    as [cur [soup' [Hpage' [_ [Hjob _]]]]].
  rewrite Hpage in Hpage'. injection Hpage' as <- <-.
  destruct (extract_text_some soup title_selectors "Unknown Title")
    as [t [Ht _]].
  destruct (extract_text_some soup company_selectors "Unknown Company")
    as [c [Hc _]].
  destruct (extract_text_some soup location_selectors "Unknown Location")
    as [l [Hl Hl']].
  destruct (extract_text_some soup description_selectors
              "No description available") as [d [Hd _]].
  destruct (extract_text_some soup requirements_selectors
              "No requirements specified") as [r [Hr _]].
  destruct (extract_text_some soup date_selectors "Unknown Date")
    as [p [Hp _]].
  destruct (parse_job_page_eq urljoin (now w (clock m)) soup id
              (job_page_url id) t c l d r p Ht Hc Hl Hd Hr Hp)
    as [x [y [z H]]].
  rewrite H in Hjob. apply (inj Some) in Hjob. subst job.
  unfold location, job_function. cbv zeta. rewrite Hl.
  assert (Hstrip : PyStr.strip l = l).
  { destruct Hl' as [-> | [sel [_ Hy]]]; [reflexivity|].
    eapply yields_stripped. exact Hy. }
  split.
  - intros a Ha. rewrite Ha.
    apply extract_text_none_default in Ha as [Hne _]. auto.
  - intros Ha. rewrite Ha, Hstrip. auto.
Qed.

Lemma location_and_job_function_witness :
  exists job m',
    extract_job_data simple_urljoin world_located (__init__ no_files) 795
    = (Job job, m')
    /\ location job = "Tunis"
    /\ job_function job = Some "Engineering".
Proof.
  destruct (extract_job_data simple_urljoin world_located
              (__init__ no_files) 795) as [[| |job] m'] eqn:Hjob;
    [vm_compute in Hjob; discriminate Hjob
    |vm_compute in Hjob; discriminate Hjob|].
  exists job, m'. split; [reflexivity|].
  destruct (location_and_job_function simple_urljoin world_located
              (__init__ no_files) m' 795 job (job_page_url 795) located_page
              Hjob eq_refl) as [Hfound _].
  destruct (Hfound "Tunis") as [_ [Hloc Hfun]]; [vm_compute; reflexivity|].
  split; [exact Hloc|]. rewrite Hfun. vm_compute. reflexivity.
Defined.

(** ** Duplicate suppression *)

Section Duplicates.

Lemma loop_body_job_known (job : JobPosting) (counter : Z) (m : Machine) :
  job_id job ∈ existing_job_ids m ->
  loop_body_job job counter m
  = (set_current_job_id (current_job_id m + 1) m, counter).
Proof.
  intros Hin. unfold loop_body_job, keep_or_skip.
  rewrite bool_decide_eq_true_2 by assumption. reflexivity.
Qed.

Lemma loop_body_job_new (job : JobPosting) (counter : Z) (m : Machine) :
  job_id job ∉ existing_job_ids m ->
  loop_body_job job counter m
  = (set_current_job_id (current_job_id m + 1) (accept job m), counter + 1).
Proof.
  intros Hin. unfold loop_body_job, keep_or_skip.
  rewrite bool_decide_eq_false_2 by assumption. reflexivity.
Qed.

(** After the loop body has seen a record, its ID is in the set. *)
Lemma loop_body_job_records_id (job : JobPosting) (counter : Z)
  (m : Machine) :
  job_id job ∈ existing_job_ids (loop_body_job job counter m).1.
Proof.
  destruct (decide (job_id job ∈ existing_job_ids m)) as [Hin | Hout].
  - rewrite loop_body_job_known by assumption. exact Hin.
  - rewrite loop_body_job_new by assumption. simpl. set_solver.
Qed.

(** The loop body never forgets an ID, and leaves alone the records of
    an ID it already knows. *)
Lemma loop_body_job_keeps (i : Z) (job : JobPosting) (counter : Z)
  (m : Machine) :
  i ∈ existing_job_ids m ->
  i ∈ existing_job_ids (loop_body_job job counter m).1
  /\ records_with_id i (jobs_scraped (loop_body_job job counter m).1)
     = records_with_id i (jobs_scraped m).
Proof.
  intros Hi.
  destruct (decide (job_id job ∈ existing_job_ids m)) as [Hin | Hout].
  - rewrite loop_body_job_known by assumption. auto.
  - rewrite loop_body_job_new by assumption. simpl. split; [set_solver|].
    unfold records_with_id. rewrite List.filter_app. simpl.
    destruct (Z.eqb_spec (job_id job) i) as [Heq | _];
      [congruence | apply app_nil_r].
Qed.

Lemma feed_keeps (i : Z) (jobs : list JobPosting) (counter : Z)
  (m : Machine) :
  i ∈ existing_job_ids m ->
  i ∈ existing_job_ids (feed jobs counter m).1
  /\ records_with_id i (jobs_scraped (feed jobs counter m).1)
     = records_with_id i (jobs_scraped m).
Proof.
  revert counter m. induction jobs as [|job rest IH]; intros counter m Hi.
  - auto.
  - simpl. destruct (loop_body_job_keeps i job counter m Hi) as [Hi' Hr].
    destruct (loop_body_job job counter m) as [m' counter'].
    destruct (IH counter' m' Hi') as [Hi'' Hr'].
    split; [exact Hi''|]. simpl in Hr. rewrite Hr', Hr. reflexivity.
Qed.

Lemma records_with_id_none (i : Z) (jobs : list JobPosting) :
  (forall job, In job jobs -> job_id job <> i) ->
  records_with_id i jobs = [].
Proof.
  induction jobs as [|job jobs IH]; intros H; [reflexivity|].
  unfold records_with_id. simpl.
  destruct (Z.eqb_spec (job_id job) i) as [Heq | _].
  - exfalso. apply (H job); [left; reflexivity | exact Heq].
  - apply IH. intros j Hj. apply H. right. exact Hj.
Qed.

Lemma records_with_id_unknown (i : Z) (m : Machine) :
  known_ids_cover m -> i ∉ existing_job_ids m ->
  records_with_id i (jobs_scraped m) = [].
Proof.
  intros Hcover Hi. apply records_with_id_none.
  intros job Hjob <-. apply Hi, Hcover, Hjob.
Qed.

(** The cover is established by [__init__] and kept by the loop body. *)
Lemma init_known_ids_cover (d : Disk) : known_ids_cover (__init__ d).
Proof. intros job []. Qed.

Lemma loop_body_job_cover (job : JobPosting) (counter : Z) (m : Machine) :
  known_ids_cover m -> known_ids_cover (loop_body_job job counter m).1.
Proof.
  intros Hcover.
  destruct (decide (job_id job ∈ existing_job_ids m)) as [Hin | Hout].
  - rewrite loop_body_job_known by assumption. exact Hcover.
  - rewrite loop_body_job_new by assumption. intros j Hj. simpl in *.
    apply in_app_or in Hj as [Hj | [<- | []]]; [|set_solver].
    specialize (Hcover j Hj). set_solver.
Qed.

End Duplicates.

(** C6 (as the code has it). Duplicate suppression is idempotent. When a
    record with the same ID is extracted a second time in a run (whatever
    was extracted in between), the second occurrence is dropped: the
    output, the duplicate set and the counter stay as they were, and the
    walk still moves on by one ID. If the ID was not yet known when it
    was first extracted, the output then holds exactly one record with
    that ID, the first one. If the ID was already in the duplicate set,
    the first occurrence is dropped as well, and the output holds the
    records with that ID it held before, none in a run that starts with
    an empty output. *)
Theorem duplicate_suppression_idempotent (m : Machine) (counter : Z)
  (first second : JobPosting) (between : list JobPosting) :
  job_id second = job_id first ->
  let after_first := loop_body_job first counter m in
  let after_between := feed between after_first.2 after_first.1 in
  let after_second :=
    loop_body_job second after_between.2 after_between.1 in
  jobs_scraped after_second.1 = jobs_scraped after_between.1
  /\ existing_job_ids after_second.1 = existing_job_ids after_between.1
  /\ after_second.2 = after_between.2
  /\ current_job_id after_second.1 = current_job_id after_between.1 + 1
  /\ (known_ids_cover m ->
      job_id first ∉ existing_job_ids m ->
      records_with_id (job_id first) (jobs_scraped after_second.1) = [first])
  /\ (job_id first ∈ existing_job_ids m ->
      records_with_id (job_id first) (jobs_scraped after_second.1)
      = records_with_id (job_id first) (jobs_scraped m)).
Proof.
  intros Hid after_first after_between after_second.
  assert (Hknown : job_id second ∈ existing_job_ids after_between.1).
  { rewrite Hid. apply feed_keeps, loop_body_job_records_id. }
  assert (Hsecond : after_second
                    = (set_current_job_id
                         (current_job_id after_between.1 + 1)
                         after_between.1, after_between.2)).
  { apply loop_body_job_known. exact Hknown. }
  rewrite Hsecond. simpl.
  repeat (split; [reflexivity|]).
  split; [|intros Hold;
           destruct (feed_keeps (job_id first) between after_first.2
                       after_first.1) as [_ Hrec];
           [apply loop_body_job_records_id|];
           fold after_between in Hrec; rewrite Hrec; unfold after_first;
           rewrite loop_body_job_known by exact Hold; reflexivity].
  intros Hcover Hnew.
  assert (Hfirst : after_first
                   = (set_current_job_id (current_job_id m + 1)
                        (accept first m), counter + 1)).
  { apply loop_body_job_new. exact Hnew. }
  destruct (feed_keeps (job_id first) between after_first.2 after_first.1)
    as [_ Hrec]; [apply loop_body_job_records_id|].
  fold after_between in Hrec. rewrite Hrec, Hfirst. simpl.
  unfold records_with_id. rewrite List.filter_app. simpl.
  rewrite Z.eqb_refl.
  fold (records_with_id (job_id first) (jobs_scraped m)).
  rewrite records_with_id_unknown by assumption. reflexivity.
Qed.

Lemma duplicate_suppression_idempotent_witness :
  map job_id (jobs_scraped fed_twice) = [795; 796]
  /\ records_with_id 795 (jobs_scraped fed_twice) = [sample_job 795]
  /\ records_with_id 795 (jobs_scraped fed_twice_known)
     = records_with_id 795 (jobs_scraped (__init__ disk_with_795)).
Proof.
  destruct (duplicate_suppression_idempotent (__init__ no_files) 0
              (sample_job 795) (sample_job 795) [sample_job 796] eq_refl)
    as [_ [_ [_ [_ [Hone _]]]]].
  destruct (duplicate_suppression_idempotent (__init__ disk_with_795) 0
              (sample_job 795) (sample_job 795) [sample_job 796] eq_refl)
    as [_ [_ [_ [_ [_ Hnone]]]]].
  split; [vm_compute; reflexivity|].
  split.
  - apply Hone.
    + apply init_known_ids_cover.
    + vm_compute. discriminate.
  - apply Hnone. vm_compute. reflexivity.
Defined.

(** C6 (as the spec has it) fails: when the ID is already in the
    duplicate set the scraper loaded from earlier output, a record
    extracted twice for it appears in the output of the run not once but
    not at all. *)
Lemma duplicate_exactly_one_counterexample :
  795 ∈ existing_job_ids (__init__ disk_with_795)
  /\ map job_id (jobs_scraped fed_twice_known) = [796]
  /\ current_job_id fed_twice_known = 798
  /\ records_with_id 795 (jobs_scraped fed_twice_known) = []
  /\ ~ (exists job,
          records_with_id 795 (jobs_scraped fed_twice_known) = [job]).
Proof.
  split; [vm_compute; reflexivity|].
  split; [vm_compute; reflexivity|].
  split; [vm_compute; reflexivity|].
  split; [vm_compute; reflexivity|].
  intros [job H]. vm_compute in H. discriminate H.
Qed.

(** ** The walk *)

Section Walk.

Variable urljoin : string -> string -> string.
Variable w : World.

Lemma save_last_job_id_history (m : Machine) (id : Z) :
  history (save_last_job_id w m id) = history m.
Proof. reflexivity. Qed.

(** The machine a stopping branch leaves does not depend on whether the
    feed generator raised. *)
Lemma save_progress_machine (m : Machine) :
  machine_of (save_progress w m)
  = match jobs_scraped m with
    | [] => m
    | _ :: _ => save_results m
    end.
Proof.
  unfold save_progress. destruct (jobs_scraped m); [reflexivity|].
  cbv zeta. destruct (feeds_raise w _); reflexivity.
Qed.

Lemma save_progress_cases (m : Machine) :
  save_progress w m = Finished (machine_of (save_progress w m))
  \/ save_progress w m = Raised (machine_of (save_progress w m)).
Proof.
  unfold save_progress. destruct (jobs_scraped m); [left; reflexivity|].
  cbv zeta. destruct (feeds_raise w _); [right | left]; reflexivity.
Qed.

(** With nothing collected a stopping branch saves nothing and cannot
    raise. *)
Lemma save_progress_empty (m : Machine) :
  jobs_scraped m = [] -> save_progress w m = Finished m.
Proof. intros H. unfold save_progress. rewrite H. reflexivity. Qed.

(** A stopping branch completes when the feeds of the collected records
    are rendered without an exception. *)
Lemma save_progress_finished (m : Machine) :
  feeds_raise w (jobs_scraped m) = false ->
  save_progress w m = Finished (machine_of (save_progress w m)).
Proof.
  intros H. unfold save_progress.
  destruct (jobs_scraped m) as [|job jobs] eqn:E; [reflexivity|].
  cbv zeta. change (jobs_scraped (save_results m)) with (jobs_scraped m).
  rewrite E, H. reflexivity.
Qed.

Lemma save_progress_history (m : Machine) :
  history (machine_of (save_progress w m)) = history m.
Proof.
  rewrite save_progress_machine. destruct (jobs_scraped m); reflexivity.
Qed.

Lemma save_progress_current (m : Machine) :
  current_job_id (machine_of (save_progress w m)) = current_job_id m.
Proof.
  rewrite save_progress_machine. destruct (jobs_scraped m); reflexivity.
Qed.

Lemma save_progress_jobs (m : Machine) :
  jobs_scraped (machine_of (save_progress w m)) = jobs_scraped m.
Proof.
  rewrite save_progress_machine. destruct (jobs_scraped m) eqn:E; exact E.
Qed.

Lemma loop_body_job_history (job : JobPosting) (counter : Z) (m : Machine) :
  history (loop_body_job job counter m).1 = history m.
Proof.
  unfold loop_body_job, keep_or_skip.
  destruct (bool_decide _); reflexivity.
Qed.

(** Extraction navigates once, to the job's page, and nowhere else. *)
Lemma extract_job_data_history (m : Machine) (id : Z) :
  history (extract_job_data urljoin w m id).2
  = history m ++ [job_page_url id].
Proof.
  unfold extract_job_data.
  destruct (browse w (job_page_url id)) as [|cur soup]; [reflexivity|].
  destruct (is_redirected_to_home base_url cur); [reflexivity|].
  destruct (parse_job_page _ _ soup id _) as [job|]; [|reflexivity].
  destruct (_is_empty_job job); reflexivity.
Qed.

(** The loop only ever adds to the navigation history. *)
Lemma scrape_loop_history (fuel : nat) (max_jobs counter : Z)
  (m : Machine) :
  exists rest,
    history (machine_of (scrape_loop w (extract_job_data urljoin w) fuel
                           max_jobs counter m))
    = history m ++ rest.
Proof.
  revert counter m. induction fuel as [|fuel IH]; intros counter m.
  - exists []. simpl. rewrite app_nil_r. reflexivity.
  - simpl. destruct (counter <? max_jobs).
    + pose proof (extract_job_data_history m (current_job_id m)) as Hx.
      destruct (extract_job_data urljoin w m (current_job_id m))
        as [[| |job] m1]; simpl in Hx.
      * exists [job_page_url (current_job_id m)]. simpl.
        rewrite save_progress_history. exact Hx.
      * exists [job_page_url (current_job_id m)]. simpl.
        rewrite save_progress_history. exact Hx.
      * pose proof (loop_body_job_history job counter m1) as Hb.
        destruct (loop_body_job job counter m1) as [m2 counter2].
        simpl in Hb. destruct (IH counter2 m2) as [rest Hrest].
        exists (job_page_url (current_job_id m) :: rest).
        rewrite Hrest, Hb, Hx, <- app_assoc. reflexivity.
    + exists []. simpl. rewrite app_nil_r. reflexivity.
Qed.

(** With a positive quota left, the first page the loop asks for is the
    job page of the current ID. *)
Lemma scrape_loop_first_fetch (fuel : nat) (max_jobs counter : Z)
  (m : Machine) :
  counter < max_jobs ->
  exists rest,
    history (machine_of (scrape_loop w (extract_job_data urljoin w)
                           (S fuel) max_jobs counter m))
    = history m ++ job_page_url (current_job_id m) :: rest.
Proof.
  intros Hmax. simpl. apply Z.ltb_lt in Hmax. rewrite Hmax.
  pose proof (extract_job_data_history m (current_job_id m)) as Hx.
  destruct (extract_job_data urljoin w m (current_job_id m))
    as [[| |job] m1]; simpl in Hx.
  - exists []. simpl. rewrite save_progress_history. exact Hx.
  - exists []. simpl. rewrite save_progress_history. exact Hx.
  - pose proof (loop_body_job_history job counter m1) as Hb.
    destruct (loop_body_job job counter m1) as [m2 counter2].
    simpl in Hb.
    destruct (scrape_loop_history fuel max_jobs counter2 m2)
      as [rest Hrest].
    exists rest. rewrite Hrest, Hb, Hx, <- app_assoc. reflexivity.
Qed.

(** With a successful login and a positive quota, the first job page
    the walk asks for is that of the scraper's current ID. *)
Lemma scrape_jobs_first_fetch (fuel : nat) (max_jobs : Z) (m : Machine) :
  login_ok w = true -> 0 < max_jobs ->
  exists rest,
    history (scrape_jobs urljoin w (S fuel) max_jobs m).2
    = history m
      ++ [base_url +:+ "/"; job_page_url (current_job_id m)] ++ rest.
Proof.
  intros Hlogin Hmax. unfold scrape_jobs, login. rewrite Hlogin.
  cbn [negb].
  destruct (scrape_loop_first_fetch fuel max_jobs 0
              (navigate (base_url +:+ "/") m) Hmax) as [rest Hrest].
  exists rest.
  destruct (scrape_loop w (extract_job_data urljoin w) (S fuel) max_jobs 0
              (navigate (base_url +:+ "/") m))
    as [m1 | m1 | m1]; cbn [machine_of] in Hrest.
  - unfold save_after_loop. destruct (current_job_id m1 >? _); cbn [snd];
      rewrite ?save_last_job_id_history, Hrest;
      cbn [history navigate current_job_id];
      rewrite <- app_assoc; reflexivity.
  - cbn [snd]. rewrite Hrest. cbn [history navigate current_job_id].
    rewrite <- app_assoc. reflexivity.
  - cbn [snd]. rewrite Hrest. cbn [history navigate current_job_id].
    rewrite <- app_assoc. reflexivity.
Qed.

End Walk.

(** C5. A persisted cursor N above the initial ID makes the next walk
    start at N - 1, and an absent or unreadable cursor file makes it
    start at the initial ID: that is the scraper's current ID after
    construction and, once logged in with a positive quota, the first job
    page the walk fetches. *)
Theorem resume_start (urljoin : string -> string -> string) (w : World)
  (d : Disk) (fuel : nat) (max_jobs : Z) :
  login_ok w = true -> 0 < max_jobs ->
  (forall state N,
      state_file d = SF_json state -> last_job_id state = Some N ->
      initial_job_id < N ->
      current_job_id (__init__ d) = N - 1
      /\ exists rest,
           history (scrape_jobs urljoin w (S fuel) max_jobs (__init__ d)).2
           = [base_url +:+ "/"; job_page_url (N - 1)] ++ rest)
  /\ (state_file d = SF_absent \/ state_file d = SF_unreadable ->
      current_job_id (__init__ d) = initial_job_id
      /\ exists rest,
           history (scrape_jobs urljoin w (S fuel) max_jobs (__init__ d)).2
           = [base_url +:+ "/"; job_page_url initial_job_id] ++ rest).
Proof.
  intros Hlogin Hmax.
  destruct (scrape_jobs_first_fetch urljoin w fuel max_jobs (__init__ d)
              Hlogin Hmax) as [rest Hrest].
  change (history (__init__ d)) with (@nil string) in Hrest.
  rewrite app_nil_l in Hrest.
  split.
  - intros state N Hfile Hlast HN.
    assert (Hcur : current_job_id (__init__ d) = N - 1).
    { unfold __init__, load_last_job_id. rewrite Hfile, Hlast.
      cbn [current_job_id]. apply Z.gtb_lt in HN. rewrite HN. reflexivity. }
    split; [exact Hcur|]. exists rest. rewrite <- Hcur. exact Hrest.
  - intros Hfile.
    assert (Hcur : current_job_id (__init__ d) = initial_job_id).
    { unfold __init__, load_last_job_id.
      destruct Hfile as [-> | ->]; reflexivity. }
    split; [exact Hcur|]. exists rest. rewrite <- Hcur. exact Hrest.
Qed.

Lemma resume_start_witness :
  current_job_id (__init__ disk_at_800) = 799
  /\ exists rest,
       history (scrape_jobs simple_urljoin world_A 1 200
                  (__init__ disk_at_800)).2
       = [base_url +:+ "/"; job_page_url 799] ++ rest.
Proof.
  destruct (resume_start simple_urljoin world_A disk_at_800 0 200)
    as [Hresume _]; [reflexivity | lia |].
  apply (Hresume (mkStateDoc (Some 800) (Some "2024-01-01T00:00:00") (Some 3))
           800); [reflexivity | reflexivity | unfold initial_job_id; lia].
Defined.

(** ** Steps of the walk *)

Section WalkSteps.

Variable urljoin : string -> string -> string.
Variable w : World.

(** A fetch that raises, or a page classified as a redirect, gives no
    record and leaves everything but the history as it was. *)
Lemma extract_job_data_raises (m : Machine) (id : Z) :
  browse w (job_page_url id) = FetchRaises ->
  extract_job_data urljoin w m id = (NoJob, navigate (job_page_url id) m).
Proof. intros H. unfold extract_job_data. rewrite H. reflexivity. Qed.

Lemma extract_job_data_redirect (m : Machine) (id : Z)
  (current_url : string) (soup : Soup) :
  browse w (job_page_url id) = FetchPage current_url soup ->
  is_redirected_to_home base_url current_url = true ->
  extract_job_data urljoin w m id = (NoJob, navigate (job_page_url id) m).
Proof.
  intros H Hred. unfold extract_job_data. rewrite H, Hred. reflexivity.
Qed.

(** A valid page gives a record with the ID asked for. *)
Lemma extract_job_data_valid (m : Machine) (id : Z) :
  valid_job_page urljoin w id ->
  exists job,
    extract_job_data urljoin w m id
    = (Job job, tick (navigate (job_page_url id) m))
    /\ job_id job = id.
Proof.
  intros [cur [soup [Hpage [Hred Hfull]]]].
  unfold extract_job_data. rewrite Hpage, Hred.
  destruct (parse_job_page_total urljoin
              (now w (clock (navigate (job_page_url id) m))) soup id
              (job_page_url id)) as [job Hjob].
  rewrite Hjob, (Hfull _ _ Hjob). exists job. split; [reflexivity|].
  eapply parse_job_page_job_id. exact Hjob.
Qed.

Lemma scrape_loop_stop (extract : Machine -> Z -> Extracted * Machine)
  (fuel : nat) (max_jobs counter : Z) (m m1 : Machine) :
  counter < max_jobs ->
  extract m (current_job_id m) = (NoJob, m1) ->
  scrape_loop w extract (S fuel) max_jobs counter m = save_progress w m1.
Proof.
  intros Hc Hx. simpl. apply Z.ltb_lt in Hc. rewrite Hc, Hx. reflexivity.
Qed.

Lemma scrape_loop_new_job (extract : Machine -> Z -> Extracted * Machine)
  (fuel : nat) (max_jobs counter : Z) (m m1 : Machine) (job : JobPosting) :
  counter < max_jobs ->
  extract m (current_job_id m) = (Job job, m1) ->
  job_id job ∉ existing_job_ids m1 ->
  scrape_loop w extract (S fuel) max_jobs counter m
  = scrape_loop w extract fuel max_jobs (counter + 1)
      (set_current_job_id (current_job_id m1 + 1) (accept job m1)).
Proof.
  intros Hc Hx Hnew. simpl. apply Z.ltb_lt in Hc. rewrite Hc, Hx.
  rewrite loop_body_job_new by assumption. reflexivity.
Qed.

End WalkSteps.

(** The sample page gives a record that is not classified empty. *)
Lemma valid_page_not_empty (timestamp : string) (id : Z) (job : JobPosting) :
  parse_job_page simple_urljoin timestamp valid_page id (job_page_url id)
  = Some job ->
  _is_empty_job job = false.
Proof.
  intros Hjob. destruct (_is_empty_job job) eqn:He; [|reflexivity].
  exfalso. revert He. apply (inj Some) in Hjob. subst job.
  vm_compute. discriminate.
Qed.

Lemma valid_page_served (w : World) (id : Z) :
  browse w (job_page_url id) = FetchPage (job_page_url id) valid_page ->
  is_redirected_to_home base_url (job_page_url id) = false ->
  valid_job_page simple_urljoin w id.
Proof.
  intros Hpage Hred. exists (job_page_url id), valid_page.
  split; [exact Hpage|]. split; [exact Hred|].
  intros timestamp job. apply valid_page_not_empty.
Qed.

Lemma world_A_valid_pages :
  valid_job_page simple_urljoin world_A 795
  /\ valid_job_page simple_urljoin world_A 796
  /\ valid_job_page simple_urljoin world_A 797.
Proof.
  repeat split; apply valid_page_served; vm_compute; reflexivity.
Qed.

(** C4 (as the code has it). When the fetch of an ID raises, the error is
    caught: extraction returns no record. The loop then ends at that ID,
    exactly as for a page classified as missing: it takes the stopping
    branch ([save_progress], then [break]), no record is appended, the
    current ID is not advanced, and no later ID is fetched; with nothing
    collected so far the branch writes nothing. A world in which the
    page is a redirect instead takes the same branch on the same
    machine. *)
Theorem exception_ends_walk (urljoin : string -> string -> string)
  (w : World) (m : Machine) (fuel : nat) (max_jobs counter : Z) :
  counter < max_jobs ->
  browse w (job_page_url (current_job_id m)) = FetchRaises ->
  let stopped := navigate (job_page_url (current_job_id m)) m in
  extract_job_data urljoin w m (current_job_id m) = (NoJob, stopped)
  /\ scrape_loop w (extract_job_data urljoin w) (S fuel) max_jobs counter m
     = save_progress w stopped
  /\ jobs_scraped (machine_of (save_progress w stopped)) = jobs_scraped m
  /\ current_job_id (machine_of (save_progress w stopped))
     = current_job_id m
  /\ history (machine_of (save_progress w stopped))
     = history m ++ [job_page_url (current_job_id m)]
  /\ (jobs_scraped m = [] -> save_progress w stopped = Finished stopped)
  /\ (forall w' current_url soup,
        browse w' (job_page_url (current_job_id m))
        = FetchPage current_url soup ->
        is_redirected_to_home base_url current_url = true ->
        scrape_loop w' (extract_job_data urljoin w') (S fuel) max_jobs
          counter m
        = save_progress w' stopped
        /\ scrape_loop w (extract_job_data urljoin w') (S fuel) max_jobs
             counter m
           = scrape_loop w (extract_job_data urljoin w) (S fuel) max_jobs
               counter m).
Proof.
  intros Hc Hraise stopped.
  pose proof (extract_job_data_raises urljoin w m _ Hraise) as Hx.
  pose proof (scrape_loop_stop w (extract_job_data urljoin w) fuel max_jobs
                counter m stopped Hc Hx) as Hloop.
  split; [exact Hx|]. split; [exact Hloop|].
  split; [rewrite save_progress_jobs; reflexivity|].
  split; [rewrite save_progress_current; reflexivity|].
  split; [rewrite save_progress_history; reflexivity|].
  split; [intros Hnone; apply save_progress_empty; exact Hnone|].
  intros w' cur soup Hpage Hred.
  pose proof (extract_job_data_redirect urljoin w' m _ cur soup Hpage Hred)
    as Hx'.
  split.
  - apply scrape_loop_stop; [exact Hc | exact Hx'].
  - rewrite Hloop. apply scrape_loop_stop; [exact Hc | exact Hx'].
Qed.

Lemma exception_ends_walk_witness :
  scrape_loop world_C (extract_job_data simple_urljoin world_C) 10 200 0
    (__init__ no_files)
  = Finished (navigate (job_page_url 795) (__init__ no_files)).
Proof.
  destruct (exception_ends_walk simple_urljoin world_C (__init__ no_files)
              9 200 0) as [_ [Hloop [_ [_ [_ [Hnone _]]]]]];
    [lia | reflexivity |].
  rewrite Hloop. apply Hnone. reflexivity.
Defined.

(** C4 (as the spec has it) fails: in a run where the fetch of 795 raises
    and 796 is a valid page, the walk ends at 795 with no record, and 796
    is never fetched. *)
Lemma exception_continues_counterexample :
  browse world_C (job_page_url 795) = FetchRaises
  /\ valid_job_page simple_urljoin world_C 796
  /\ run_C.1 = Some []
  /\ history run_C.2 = [base_url +:+ "/"; job_page_url 795]
  /\ ~ In (job_page_url 796) (history run_C.2).
Proof.
  split; [reflexivity|].
  split; [apply valid_page_served; vm_compute; reflexivity|].
  split; [vm_compute; reflexivity|].
  split; [vm_compute; reflexivity|].
  vm_compute. intros [H | [H | []]]; discriminate H.
Qed.

(** C2 (as the spec has it) fails: in scenario A the three records are
    collected, but the cursor is persisted with [last_job_id] 797, the
    last ID that gave a record, not 798. *)
Lemma scenario_A_cursor_counterexample :
  state_file no_files = SF_absent
  /\ valid_job_page simple_urljoin world_A 795
  /\ valid_job_page simple_urljoin world_A 796
  /\ valid_job_page simple_urljoin world_A 797
  /\ browse world_A (job_page_url 798)
     = FetchPage (base_url +:+ "/feed") empty_page
  /\ option_map (map job_id) run_A.1 = Some [795; 796; 797]
  /\ state_file (disk run_A.2)
     = SF_json (mkStateDoc (Some 797) (Some "2024-01-01T00:00:00") (Some 1))
  /\ ~ (exists state,
           state_file (disk run_A.2) = SF_json state
           /\ last_job_id state = Some 798).
Proof.
  destruct world_A_valid_pages as [Hv795 [Hv796 Hv797]].
  split; [reflexivity|].
  split; [exact Hv795|]. split; [exact Hv796|]. split; [exact Hv797|].
  split; [vm_compute; reflexivity|].
  split; [vm_compute; reflexivity|].
  split; [vm_compute; reflexivity|].
  intros [state [Hfile Hlast]]. vm_compute in Hfile.
  injection Hfile as <-. vm_compute in Hlast. discriminate Hlast.
Qed.

(** C2 (as the code has it). With no cursor file, none of 795-797 known
    from earlier output, valid pages at 795, 796 and 797, a redirect to
    the feed at 798, room in the quota, and feeds that are rendered
    without an exception for records of 795-797, the walk returns exactly
    three records, for 795, 796 and 797 in this order, and persists the
    cursor with [last_job_id] 797. *)
Theorem scenario_A_cursor (urljoin : string -> string -> string) (w : World)
  (d : Disk) (fuel : nat) (max_jobs : Z) (soup : Soup) :
  login_ok w = true ->
  state_file d = SF_absent ->
  795 ∉ load_existing_job_ids d ->
  796 ∉ load_existing_job_ids d ->
  797 ∉ load_existing_job_ids d ->
  valid_job_page urljoin w 795 ->
  valid_job_page urljoin w 796 ->
  valid_job_page urljoin w 797 ->
  browse w (job_page_url 798) = FetchPage (base_url +:+ "/feed") soup ->
  3 < max_jobs ->
  (forall jobs,
      map job_id jobs = [795; 796; 797] -> feeds_raise w jobs = false) ->
  exists j1 j2 j3 state,
    (scrape_jobs urljoin w (4 + fuel) max_jobs (__init__ d)).1
    = Some [j1; j2; j3]
    /\ job_id j1 = 795 /\ job_id j2 = 796 /\ job_id j3 = 797
    /\ state_file (disk (scrape_jobs urljoin w (4 + fuel) max_jobs
                           (__init__ d)).2) = SF_json state
    /\ last_job_id state = Some 797.
Proof.
  intros Hlogin Hfile H795 H796 H797 Hv795 Hv796 Hv797 H798 Hmax Hfeeds.
  assert (Hinit : __init__ d
                  = mkMachine 795 [] (load_existing_job_ids d) d 0 []).
  { unfold __init__, load_last_job_id. rewrite Hfile. reflexivity. }
  unfold scrape_jobs, login. rewrite Hlogin, Hinit. cbn [negb].
  change (4 + fuel)%nat with (S (S (S (S fuel)))).
  set (E := load_existing_job_ids d) in *.
  set (m0 := navigate (base_url +:+ "/") (mkMachine 795 [] E d 0 [])).
  destruct (extract_job_data_valid urljoin w m0 795 Hv795)
    as [j1 [Hx1 Hid1]].
  rewrite (scrape_loop_new_job w (extract_job_data urljoin w) (S (S (S fuel)))
             max_jobs 0 m0 _ j1 ltac:(lia) Hx1)
    by (rewrite Hid1; exact H795).
  set (m1 := set_current_job_id _ (accept j1 _)).
  destruct (extract_job_data_valid urljoin w m1 796 Hv796)
    as [j2 [Hx2 Hid2]].
  rewrite (scrape_loop_new_job w (extract_job_data urljoin w) (S (S fuel))
             max_jobs (0 + 1) m1 _ j2 ltac:(lia) Hx2)
    by (rewrite Hid2; cbn; rewrite Hid1; set_unfold; intuition lia).
  set (m2 := set_current_job_id _ (accept j2 _)).
  destruct (extract_job_data_valid urljoin w m2 797 Hv797)
    as [j3 [Hx3 Hid3]].
  rewrite (scrape_loop_new_job w (extract_job_data urljoin w) (S fuel)
             max_jobs (0 + 1 + 1) m2 _ j3 ltac:(lia) Hx3)
    by (rewrite Hid3; cbn; rewrite Hid1, Hid2; set_unfold; intuition lia).
  set (m3 := set_current_job_id _ (accept j3 _)).
  assert (Hred : is_redirected_to_home base_url (base_url +:+ "/feed") = true)
    by (vm_compute; reflexivity).
  pose proof (extract_job_data_redirect urljoin w m3 798 _ _ H798 Hred)
    as Hx4.
  rewrite (scrape_loop_stop w (extract_job_data urljoin w) fuel max_jobs
             (0 + 1 + 1 + 1) m3 _ ltac:(lia) Hx4).
  rewrite save_progress_finished
    by (apply Hfeeds; cbn; rewrite Hid1, Hid2, Hid3; reflexivity).
  rewrite save_progress_machine.
  exists j1, j2, j3. eexists.
  split; [reflexivity|].
  split; [exact Hid1|]. split; [exact Hid2|]. split; [exact Hid3|].
  split; reflexivity.
Qed.

Lemma scenario_A_cursor_witness :
  exists j1 j2 j3 state,
    run_A.1 = Some [j1; j2; j3]
    /\ job_id j1 = 795 /\ job_id j2 = 796 /\ job_id j3 = 797
    /\ state_file (disk run_A.2) = SF_json state
    /\ last_job_id state = Some 797.
Proof.
  destruct world_A_valid_pages as [Hv795 [Hv796 Hv797]].
  apply (scenario_A_cursor simple_urljoin world_A no_files 6 200 empty_page);
    try assumption; try reflexivity; try (vm_compute; discriminate).
Defined.

(** ** The empty-record failsafe *)

Section Failsafe.

Variable urljoin : string -> string -> string.
Variable w : World.

(** When extraction signals the failsafe stop, it has just persisted the
    cursor at the ID it was asked for. *)
Lemma extract_job_data_empty_stop (m m1 : Machine) (id : Z) :
  extract_job_data urljoin w m id = (EMPTY_JOB_STOP, m1) ->
  m1 = save_last_job_id w (tick (navigate (job_page_url id) m)) id.
Proof.
  unfold extract_job_data.
  destruct (browse w (job_page_url id)) as [|cur soup]; [discriminate|].
  destruct (is_redirected_to_home base_url cur); [discriminate|].
  destruct (parse_job_page _ _ soup id _) as [job|]; [|discriminate].
  destruct (_is_empty_job job); [|discriminate].
  intros [= <-]. reflexivity.
Qed.

Lemma save_progress_state_file (m : Machine) :
  state_file (disk (machine_of (save_progress w m))) = state_file (disk m).
Proof.
  rewrite save_progress_machine. destruct (jobs_scraped m); reflexivity.
Qed.

(** When the failsafe fires at the very ID the run started from, the
    cursor the run leaves behind is that ID (also when the stopping
    branch raises). *)
Lemma empty_stop_at_start_keeps_cursor (fuel : nat) (max_jobs : Z)
  (m m1 : Machine) :
  login_ok w = true -> 0 < max_jobs ->
  extract_job_data urljoin w (navigate (base_url +:+ "/") m)
    (current_job_id m) = (EMPTY_JOB_STOP, m1) ->
  exists state,
    state_file (disk (scrape_jobs urljoin w (S fuel) max_jobs m).2)
    = SF_json state
    /\ last_job_id state = Some (current_job_id m).
Proof.
  intros Hlogin Hmax Hx. unfold scrape_jobs, login. rewrite Hlogin.
  cbn [negb]. simpl scrape_loop. apply Z.ltb_lt in Hmax.
  change (current_job_id (navigate (base_url +:+ "/") m))
    with (current_job_id m).
  rewrite Hmax, Hx. apply extract_job_data_empty_stop in Hx. subst m1.
  destruct (save_progress_cases w
              (save_last_job_id w
                 (tick (navigate (job_page_url (current_job_id m))
                          (navigate (base_url +:+ "/") m)))
                 (current_job_id m))) as [Hrun | Hrun];
    rewrite Hrun.
  - unfold save_after_loop. rewrite save_progress_current.
    cbn [current_job_id save_last_job_id tick set_disk navigate].
    rewrite Z.gtb_ltb, Z.ltb_irrefl. cbn [snd].
    rewrite save_progress_state_file. eexists. split; reflexivity.
  - cbn [snd]. rewrite save_progress_state_file.
    eexists. split; reflexivity.
Qed.

(** In general: the loop stops on the failsafe without appending or
    advancing, and when the stopping branch completes, the cursor left
    after the loop is the failing ID only when the run started there;
    otherwise it is the ID before it. *)
Lemma empty_stop_cursor (fuel : nat) (max_jobs counter start_id : Z)
  (m m1 : Machine) :
  counter < max_jobs ->
  extract_job_data urljoin w m (current_job_id m) = (EMPTY_JOB_STOP, m1) ->
  scrape_loop w (extract_job_data urljoin w) (S fuel) max_jobs counter m
  = save_progress w m1
  /\ jobs_scraped (machine_of (save_progress w m1)) = jobs_scraped m
  /\ current_job_id (machine_of (save_progress w m1)) = current_job_id m
  /\ exists state,
       state_file (disk (save_after_loop w start_id
                           (machine_of (save_progress w m1))))
       = SF_json state
       /\ last_job_id state
          = Some (if current_job_id m >? start_id
                  then current_job_id m - 1
                  else current_job_id m).
Proof.
  intros Hc Hx. split.
  { simpl. apply Z.ltb_lt in Hc. rewrite Hc, Hx. reflexivity. }
  apply extract_job_data_empty_stop in Hx. subst m1.
  split; [rewrite save_progress_jobs; reflexivity|].
  split; [rewrite save_progress_current; reflexivity|].
  unfold save_after_loop. rewrite save_progress_current.
  cbn [current_job_id save_last_job_id tick set_disk navigate].
  destruct (current_job_id m >? start_id).
  - eexists. split; reflexivity.
  - rewrite save_progress_state_file. eexists. split; reflexivity.
Qed.

End Failsafe.

(** C1, the code at a failing input. From an empty disk the run collects
    795; the page at 796 gives a record classified empty, extraction
    persists the cursor at 796 and signals the stop; no record is
    appended for 796; but the save after the loop then overwrites the
    cursor with 795, so the run ends with [last_job_id] 795 (and two
    saves counted), not 796. *)
Theorem empty_failsafe_cursor_overwritten :
  (forall m,
      extract_job_data simple_urljoin world_B m 796
      = (EMPTY_JOB_STOP,
         save_last_job_id world_B (tick (navigate (job_page_url 796) m)) 796))
  /\ option_map (map job_id) run_B.1 = Some [795]
  /\ history run_B.2
     = [base_url +:+ "/"; job_page_url 795; job_page_url 796]
  /\ current_job_id run_B.2 = 796
  /\ state_file (disk run_B.2)
     = SF_json (mkStateDoc (Some 795) (Some "2024-01-01T00:00:00") (Some 2)).
Proof.
  split; [intros m; reflexivity|].
  repeat split; vm_compute; reflexivity.
Qed.

(** ** Termination of the walk *)

Section Termination.

Variable urljoin : string -> string -> string.
Variable w : World.

Lemma ahead_after_known (job : JobPosting) (m : Machine) :
  job_id job = current_job_id m ->
  job_id job ∈ existing_job_ids m ->
  (size (ahead (set_current_job_id (current_job_id m + 1) m))
   < size (ahead m))%nat.
Proof.
  intros Hid Hin. apply subset_size. unfold ahead. simpl. split.
  - set_unfold. intros x [Hle Hx]. split; [lia | exact Hx].
  - intros Hsub. specialize (Hsub (current_job_id m)). set_unfold.
    destruct Hsub as [Hle _]; [split; [lia | congruence] | lia].
Qed.

Lemma ahead_after_new (job : JobPosting) (m : Machine) :
  job_id job = current_job_id m ->
  (size (ahead (set_current_job_id (current_job_id m + 1) (accept job m)))
   <= size (ahead m))%nat.
Proof.
  intros Hid. apply subseteq_size. unfold ahead. simpl.
  set_unfold. intros x [Hle [Hx | Hx]]; [lia|]. split; [lia | exact Hx].
Qed.

(** An exception leaves the loop only from the feed generator, called
    on the records collected so far, of which there is at least one. *)
Lemma save_progress_raised (m m' : Machine) :
  save_progress w m = Raised m' ->
  m' = save_results m
  /\ jobs_scraped m' <> []
  /\ feeds_raise w (jobs_scraped m') = true.
Proof.
  unfold save_progress.
  destruct (jobs_scraped m) as [|job jobs] eqn:E; [discriminate|].
  cbv zeta. destruct (feeds_raise w _) eqn:F; [|discriminate].
  intros [= <-]. split; [reflexivity|]. split; [|exact F].
  change (jobs_scraped (save_results m)) with (jobs_scraped m).
  rewrite E. discriminate.
Qed.

Lemma scrape_loop_raised (max_jobs : Z) (fuel : nat) :
  forall (counter : Z) (m m' : Machine),
    scrape_loop w (extract_job_data urljoin w) fuel max_jobs counter m
    = Raised m' ->
    jobs_scraped m' <> [] /\ feeds_raise w (jobs_scraped m') = true.
Proof.
  induction fuel as [|fuel IH]; intros counter m m'; [discriminate|].
  simpl. destruct (counter <? max_jobs); [|discriminate].
  destruct (extract_job_data urljoin w m (current_job_id m))
    as [[| |job] m1].
  - intros H. apply save_progress_raised in H. tauto.
  - intros H. apply save_progress_raised in H. tauto.
  - destruct (loop_body_job job counter m1) as [m2 counter2]. apply IH.
Qed.

(** The loop ends: with enough fuel it completes or an exception leaves
    it, whatever the site serves. The bound is the quota left plus the
    known IDs ahead. *)
Lemma scrape_loop_terminates (max_jobs : Z) (fuel : nat) :
  forall (counter : Z) (m : Machine),
    (Z.to_nat (max_jobs - counter) + size (ahead m) < fuel)%nat ->
    exists m',
      scrape_loop w (extract_job_data urljoin w) fuel max_jobs counter m
      = Finished m'
      \/ scrape_loop w (extract_job_data urljoin w) fuel max_jobs counter m
         = Raised m'.
Proof.
  induction fuel as [|fuel IH]; intros counter m Hfuel; [lia|].
  simpl. destruct (Z.ltb_spec counter max_jobs) as [Hlt | Hge];
    [|eauto].
  destruct (extract_job_data urljoin w m (current_job_id m))
    as [[| |job] m1] eqn:Hx;
    [eexists; apply save_progress_cases
    | eexists; apply save_progress_cases |].
  pose proof (parse_job_page_job_id urljoin) as Hid.
  apply extract_job_data_job in Hx as [cur [soup [_ [_ [Hjob [_ ->]]]]]].
  apply Hid in Hjob. clear Hid.
  set (m1 := tick (navigate (job_page_url (current_job_id m)) m)).
  destruct (decide (job_id job ∈ existing_job_ids m1)) as [Hin | Hout].
  - rewrite loop_body_job_known by assumption. apply IH.
    pose proof (ahead_after_known job m1 Hjob Hin) as Hlt'.
    change (ahead m1) with (ahead m) in Hlt'. lia.
  - rewrite loop_body_job_new by assumption. apply IH.
    pose proof (ahead_after_new job m1 Hjob) as Hle.
    change (ahead m1) with (ahead m) in Hle.
    replace (max_jobs - (counter + 1)) with (max_jobs - counter - 1)
      by lia.
    rewrite Z2Nat.inj_sub by lia.
    assert (0 < Z.to_nat (max_jobs - counter))%nat by lia.
    change (Z.to_nat 1) with 1%nat. lia.
Qed.

(** When the feeds are always rendered, the loop completes. *)
Lemma scrape_loop_finishes (max_jobs : Z) (fuel : nat) (counter : Z)
  (m : Machine) :
  (forall jobs, feeds_raise w jobs = false) ->
  (Z.to_nat (max_jobs - counter) + size (ahead m) < fuel)%nat ->
  exists m',
    scrape_loop w (extract_job_data urljoin w) fuel max_jobs counter m
    = Finished m'.
Proof.
  intros Hfeeds Hfuel.
  destruct (scrape_loop_terminates max_jobs fuel counter m Hfuel)
    as [m' [H | H]]; [eauto|].
  apply scrape_loop_raised in H as [_ H]. rewrite Hfeeds in H.
  discriminate H.
Qed.

(** [scrape_jobs] returns, with enough fuel, when the feeds are always
    rendered. *)
Lemma scrape_jobs_returns (max_jobs : Z) (m : Machine) :
  (forall jobs, feeds_raise w jobs = false) ->
  exists fuel jobs,
    (scrape_jobs urljoin w fuel max_jobs m).1 = Some jobs.
Proof.
  intros Hfeeds. unfold scrape_jobs, login.
  destruct (login_ok w); cbn [negb]; [|exists 0%nat; eauto].
  set (m0 := navigate (base_url +:+ "/") m).
  destruct (scrape_loop_finishes max_jobs
              (S (Z.to_nat (max_jobs - 0) + size (ahead m0))) 0 m0 Hfeeds)
    as [m' Hm']; [lia|].
  eexists. rewrite Hm'. eauto.
Qed.

End Termination.

(** * Further properties of the engine *)

(** ** Cursor store *)

(** X1. Whatever the cursor file held before, the ID written by
    [save_last_job_id] is the one [load_last_job_id] reads back, and a
    scraper constructed on that disk starts one below it when it is above
    the initial ID and at it otherwise; the duplicate set it loads is not
    affected by the save. *)
Theorem cursor_round_trip (w : World) (m : Machine) (j : Z) :
  load_last_job_id (disk (save_last_job_id w m j)) = j
  /\ current_job_id (__init__ (disk (save_last_job_id w m j)))
     = (if j >? initial_job_id then j - 1 else j)
  /\ existing_job_ids (__init__ (disk (save_last_job_id w m j)))
     = load_existing_job_ids (disk m).
Proof. repeat split. Qed.

Lemma previous_runs_save (w : World) (m : Machine) (j : Z) :
  previous_runs (disk (save_last_job_id w m j)) = previous_runs (disk m) + 1.
Proof.
  unfold previous_runs, save_last_job_id. cbn [disk tick set_disk state_file total_runs].
  destruct (state_file (disk m)) as [| |state]; [reflexivity | reflexivity |].
  destruct (total_runs state); reflexivity.
Qed.

Lemma save_writes_cursor (w : World) (m : Machine) (j : Z) :
  state_file (disk (save_last_job_id w m j))
  = SF_json (mkStateDoc (Some j) (Some (now w (clock m)))
               (Some (previous_runs (disk m) + 1))).
Proof.
  unfold previous_runs, save_last_job_id. cbn [disk tick set_disk state_file].
  destruct (state_file (disk m)) as [| |state]; [reflexivity | reflexivity |].
  destruct (total_runs state); reflexivity.
Qed.

Lemma previous_runs_saves (w : World) (ids : list Z) (m : Machine) :
  previous_runs (disk (foldl (save_last_job_id w) m ids))
  = previous_runs (disk m) + Z.of_nat (length ids).
Proof.
  revert m. induction ids as [|j ids IH]; intros m; simpl; [lia|].
  rewrite IH, previous_runs_save. lia.
Qed.

(** X2. The run counter survives across saves: after any non-empty series
    of saves the cursor file holds the last ID saved, and its
    [total_runs] is the count the file carried before the series (0 for an
    absent or unreadable file) plus the number of saves. *)
Theorem run_counter_accumulates (w : World) (m : Machine) (ids : list Z)
  (j : Z) :
  exists state,
    state_file (disk (foldl (save_last_job_id w) m (ids ++ [j])))
    = SF_json state
    /\ last_job_id state = Some j
    /\ total_runs state
       = Some (previous_runs (disk m) + Z.of_nat (length (ids ++ [j]))).
Proof.
  assert (Hlast : forall a,
             foldl (save_last_job_id w) a [j] = save_last_job_id w a j)
    by reflexivity.
  rewrite foldl_app, Hlast, save_writes_cursor, previous_runs_saves.
  eexists. split; [reflexivity|]. split; [reflexivity|].
  cbn [total_runs]. rewrite length_app. cbn [length]. f_equal. lia.
Qed.

(** ** Duplicate index *)

Lemma elem_of_job_ids_of (i : Z) (jobs : list (option Z)) :
  i ∈ job_ids_of jobs <-> In (Some i) jobs.
Proof.
  induction jobs as [|[k|] jobs IH]; simpl.
  - set_unfold. tauto.
  - rewrite elem_of_union, elem_of_singleton, IH. split.
    + intros [-> | H]; auto.
    + intros [[= ->] | H]; auto.
  - rewrite IH. split; [auto | intros [H | H]; [discriminate | exact H]].
Qed.

(** X3. The duplicate set is read from the first raw-records file that
    exists, parses and holds a non-empty array: an ID is in the set
    exactly when some object of that file carries it as [job_id].
    [data/jobs_raw.json] shadows [jobs_raw.json] whenever it holds a
    non-empty array, even one whose objects have no [job_id]; an absent,
    unreadable or empty first file falls through to the second. *)
Theorem existing_ids_first_usable_file (d : Disk) (i : Z) :
  i ∈ load_existing_job_ids d
  <-> match data_jobs_raw d with
      | DF_jobs (j :: jobs) => In (Some i) (j :: jobs)
      | _ =>
          match jobs_raw d with
          | DF_jobs jobs => In (Some i) jobs
          | _ => False
          end
      end.
Proof.
  unfold load_existing_job_ids, load_ids_from.
  destruct (data_jobs_raw d) as [| |[|j jobs]];
    try apply elem_of_job_ids_of;
    destruct (jobs_raw d) as [| |[|k jobs']];
    try apply elem_of_job_ids_of;
    set_unfold; tauto.
Qed.

(** X4. What [save_results] writes is what the next scraper loads as its
    duplicate set: when the run has collected a record, the IDs read back
    from the disk are exactly the IDs of this run's records (earlier
    output is replaced, not merged), and the cursor file is left as it
    was. *)
Theorem saved_results_seed_duplicates (m : Machine) (i : Z) :
  jobs_scraped m <> [] ->
  (i ∈ load_existing_job_ids (disk (save_results m))
   <-> exists job, In job (jobs_scraped m) /\ job_id job = i)
  /\ state_file (disk (save_results m)) = state_file (disk m).
Proof.
  intros Hne. split; [|reflexivity].
  assert (Hmap : i ∈ job_ids_of
                       (map (fun job => Some (job_id job)) (jobs_scraped m))
                 <-> exists job, In job (jobs_scraped m) /\ job_id job = i).
  { rewrite elem_of_job_ids_of, in_map_iff. split.
    - intros [x [[= <-] Hx]]. eauto.
    - intros [x [Hx <-]]. eauto. }
  unfold load_existing_job_ids, load_ids_from.
  cbn [save_results disk tick set_disk data_jobs_raw].
  destruct (jobs_scraped m) as [|job jobs]; [contradiction | exact Hmap].
Qed.

Lemma saved_results_seed_duplicates_witness :
  795 ∈ load_existing_job_ids (disk (save_results one_record_machine))
  /\ state_file (disk (save_results one_record_machine))
     = state_file disk_at_800.
Proof.
  destruct (saved_results_seed_duplicates one_record_machine 795)
    as [Hids Hfile]; [vm_compute; discriminate|].
  split; [|exact Hfile].
  apply Hids. exists (sample_job 795). split; [left|]; reflexivity.
Defined.

(** ** Invariants of the walk *)

Section WalkInvariant.

Variable urljoin : string -> string -> string.
Variable w : World.

(** Extraction touches neither the records, nor the duplicate set, nor
    the current ID; it adds the job's page to the history. *)
Lemma extract_job_data_frame (m : Machine) (id : Z) :
  jobs_scraped (extract_job_data urljoin w m id).2 = jobs_scraped m
  /\ existing_job_ids (extract_job_data urljoin w m id).2
     = existing_job_ids m
  /\ current_job_id (extract_job_data urljoin w m id).2 = current_job_id m
  /\ history (extract_job_data urljoin w m id).2
     = history m ++ [job_page_url id].
Proof.
  unfold extract_job_data.
  destruct (browse w (job_page_url id)) as [|cur soup]; [auto|].
  destruct (is_redirected_to_home base_url cur); [auto|].
  destruct (parse_job_page _ _ soup id _) as [job|]; [|auto].
  destruct (_is_empty_job job); auto.
Qed.

Lemma save_progress_existing (m : Machine) :
  existing_job_ids (machine_of (save_progress w m)) = existing_job_ids m.
Proof.
  rewrite save_progress_machine. destruct (jobs_scraped m); reflexivity.
Qed.

(** The record built from a page carries the ID and the address it was
    built for. *)
Lemma parse_job_page_identity (timestamp : string) (soup : Soup) (id : Z)
  (job_url : string) (job : JobPosting) :
  parse_job_page urljoin timestamp soup id job_url = Some job ->
  job_id job = id /\ url job = job_url /\ scraped_at job = timestamp.
Proof.
  destruct (extract_text_some soup title_selectors "Unknown Title")
    as [t [Ht _]].
  destruct (extract_text_some soup company_selectors "Unknown Company")
    as [c [Hc _]].
  destruct (extract_text_some soup location_selectors "Unknown Location")
    as [l [Hl _]].
  destruct (extract_text_some soup description_selectors
              "No description available") as [d [Hd _]].
  destruct (extract_text_some soup requirements_selectors
              "No requirements specified") as [r [Hr _]].
  destruct (extract_text_some soup date_selectors "Unknown Date")
    as [p [Hp _]].
  destruct (parse_job_page_eq urljoin timestamp soup id job_url t c l d r p
              Ht Hc Hl Hd Hr Hp) as [x [y [z H]]].
  rewrite H. intros Heq. apply (inj Some) in Heq. subst job. auto.
Qed.

Lemma seqZ_snoc (start n : Z) :
  0 <= n -> seqZ start (n + 1) = seqZ start n ++ [start + n].
Proof.
  intros Hn. rewrite seqZ_app by lia. reflexivity.
Qed.

Lemma collected_widen (start bound bound' : Z) (known : gset Z)
  (jobs : list JobPosting) :
  bound <= bound' ->
  Forall (collected start bound known) jobs ->
  Forall (collected start bound' known) jobs.
Proof.
  intros Hb Hall. eapply Forall_impl; [exact Hall|].
  intros job [Hr H]. split; [lia | exact H].
Qed.

Lemma walk_inv_post (start : Z) (known : gset Z) (visited : list string)
  (max_jobs counter : Z) (m : Machine) :
  walk_inv start known visited max_jobs counter m ->
  walk_post start known visited max_jobs m.
Proof.
  intros [Hcur Hex Hrec Hsort Hhist Hcount Hquota].
  split; try assumption.
  - eauto.
  - lia.
Qed.

(** Leaving the loop on the page of the current ID. *)
Lemma walk_post_stop (start : Z) (known : gset Z) (visited : list string)
  (max_jobs counter : Z) (m m1 : Machine) :
  walk_inv start known visited max_jobs counter m ->
  jobs_scraped m1 = jobs_scraped m ->
  existing_job_ids m1 = existing_job_ids m ->
  current_job_id m1 = current_job_id m ->
  history m1 = history m ++ [job_page_url (current_job_id m)] ->
  walk_post start known visited max_jobs (machine_of (save_progress w m1)).
Proof.
  intros [Hcur Hex Hrec Hsort Hhist Hcount Hquota] Hj He Hc Hh.
  split; rewrite ?save_progress_jobs, ?save_progress_existing,
           ?save_progress_current, ?save_progress_history, ?Hj, ?He, ?Hc.
  - exact Hcur.
  - exact Hex.
  - exact Hrec.
  - exact Hsort.
  - exists (current_job_id m - start + 1). split; [|right; reflexivity].
    rewrite Hh, Hhist, seqZ_snoc, map_app, <- app_assoc by lia.
    replace (start + (current_job_id m - start)) with (current_job_id m)
      by lia.
    reflexivity.
  - lia.
Qed.

(** One pass through the loop body with a fresh record keeps the state
    of the walk. *)
Lemma walk_inv_step (start : Z) (known : gset Z) (visited : list string)
  (max_jobs counter : Z) (m : Machine) (job : JobPosting) :
  walk_inv start known visited max_jobs counter m ->
  counter < max_jobs ->
  job_id job = current_job_id m ->
  _is_empty_job job = false ->
  url job = job_page_url (job_id job) ->
  let m1 := tick (navigate (job_page_url (current_job_id m)) m) in
  walk_inv start known visited max_jobs (loop_body_job job counter m1).2
    (loop_body_job job counter m1).1.
Proof.
  intros [Hcur Hex Hrec Hsort Hhist Hcount Hquota] Hlt Hid Hne Hurl m1.
  assert (Hhist' : history m1
                   = visited ++ map job_page_url
                                  (seqZ start (current_job_id m + 1 - start))).
  { unfold m1. cbn [history tick navigate].
    replace (current_job_id m + 1 - start)
      with (current_job_id m - start + 1) by lia.
    rewrite Hhist, seqZ_snoc, map_app, <- app_assoc by lia.
    replace (start + (current_job_id m - start)) with (current_job_id m)
      by lia.
    reflexivity. }
  destruct (decide (job_id job ∈ existing_job_ids m1)) as [Hin | Hout].
  - rewrite loop_body_job_known by assumption. cbn [fst snd].
    split; cbn [current_job_id set_current_job_id jobs_scraped
                existing_job_ids history tick navigate m1].
    + lia.
    + exact Hex.
    + eapply collected_widen; [|exact Hrec]. lia.
    + exact Hsort.
    + exact Hhist'.
    + exact Hcount.
    + exact Hquota.
  - rewrite loop_body_job_new by assumption. cbn [fst snd].
    assert (Hfresh : (job_id job ∉ known)
                     /\ ~ In (job_id job) (map job_id (jobs_scraped m))).
    { split; intros H; apply Hout, Hex; auto. }
    destruct Hfresh as [Hk Hn].
    split; cbn [current_job_id set_current_job_id jobs_scraped
                existing_job_ids history tick navigate accept m1].
    + lia.
    + intros i. rewrite elem_of_union, elem_of_singleton, Hex, map_app,
        in_app_iff. simpl. intuition.
    + apply Forall_app. split.
      * eapply collected_widen; [|exact Hrec]. lia.
      * constructor; [|constructor]. repeat split; auto; lia.
    + rewrite map_app. apply StronglySorted_app.
      split; [|split; [exact Hsort | repeat constructor]].
      intros x1 x2 Hx1 Hx2. apply list_elem_of_In in Hx1.
      apply list_elem_of_In in Hx2. destruct Hx2 as [<- | []].
      apply in_map_iff in Hx1 as [j [<- Hj]].
      rewrite Forall_forall in Hrec.
      apply list_elem_of_In in Hj. destruct (Hrec j Hj) as [Hr _]. lia.
    + exact Hhist'.
    + rewrite length_app. simpl. lia.
    + lia.
Qed.

(** The loop keeps the state of the walk, however it is left. *)
Lemma scrape_loop_keeps_inv (start : Z) (known : gset Z)
  (visited : list string) (max_jobs : Z) (fuel : nat) :
  forall (counter : Z) (m : Machine),
    walk_inv start known visited max_jobs counter m ->
    walk_post start known visited max_jobs
      (machine_of (scrape_loop w (extract_job_data urljoin w) fuel max_jobs
                     counter m)).
Proof.
  induction fuel as [|fuel IH]; intros counter m Hinv.
  - eapply walk_inv_post. exact Hinv.
  - simpl. destruct (Z.ltb_spec counter max_jobs) as [Hlt | Hge].
    + destruct (extract_job_data_frame m (current_job_id m))
        as [Hj [He [Hc Hh]]].
      destruct (extract_job_data urljoin w m (current_job_id m))
        as [[| |job] m1] eqn:Hx; cbn [snd] in Hj, He, Hc, Hh.
      * eapply walk_post_stop; eassumption.
      * eapply walk_post_stop; eassumption.
      * apply extract_job_data_job in Hx
          as [cur [soup [_ [_ [Hjob [Hne ->]]]]]].
        apply parse_job_page_identity in Hjob as [Hid [Hurl _]].
        pose proof (walk_inv_step start known visited max_jobs counter m job
                      Hinv Hlt Hid Hne ltac:(rewrite Hurl, Hid; reflexivity))
          as Hstep.
        cbv zeta in Hstep.
        destruct (loop_body_job job counter _) as [m2 counter2].
        apply IH. exact Hstep.
    + eapply walk_inv_post. exact Hinv.
Qed.

(** A freshly constructed scraper that has just logged in is in the state
    of a walk that starts at its current ID. *)
Lemma walk_inv_init (d : Disk) (max_jobs : Z) :
  walk_inv (current_job_id (__init__ d)) (load_existing_job_ids d)
    [base_url +:+ "/"] max_jobs 0
    (navigate (base_url +:+ "/") (__init__ d)).
Proof.
  split; cbn [current_job_id navigate jobs_scraped existing_job_ids history
              __init__].
  - lia.
  - intros i. simpl. tauto.
  - constructor.
  - constructor.
  - rewrite Z.sub_diag. reflexivity.
  - reflexivity.
  - lia.
Qed.

Lemma save_after_loop_frame (start_id : Z) (m : Machine) :
  jobs_scraped (save_after_loop w start_id m) = jobs_scraped m
  /\ existing_job_ids (save_after_loop w start_id m) = existing_job_ids m
  /\ current_job_id (save_after_loop w start_id m) = current_job_id m
  /\ history (save_after_loop w start_id m) = history m.
Proof.
  unfold save_after_loop. destruct (current_job_id m >? start_id); auto.
Qed.

(** A whole run from a freshly constructed scraper, with a successful
    login, ends in the state of a finished walk. *)
Lemma scrape_jobs_post (d : Disk) (fuel : nat) (max_jobs : Z) :
  login_ok w = true ->
  walk_post (current_job_id (__init__ d)) (load_existing_job_ids d)
    [base_url +:+ "/"] max_jobs
    (scrape_jobs urljoin w fuel max_jobs (__init__ d)).2.
Proof.
  intros Hlogin. unfold scrape_jobs, login. rewrite Hlogin. cbn [negb].
  pose proof (scrape_loop_keeps_inv _ _ _ max_jobs fuel 0 _
                (walk_inv_init d max_jobs)) as Hpost.
  destruct (scrape_loop w (extract_job_data urljoin w) fuel max_jobs 0
              (navigate (base_url +:+ "/") (__init__ d)))
    as [m' | m' | m']; cbn [machine_of snd] in *;
    [|exact Hpost | exact Hpost].
  destruct Hpost as [Hcur Hex Hrec Hsort Hhist Hquota].
  destruct (save_after_loop_frame
              (current_job_id (navigate (base_url +:+ "/") (__init__ d))) m')
    as [Hj [He [Hc Hh]]].
  split; rewrite ?Hj, ?He, ?Hc, ?Hh; assumption.
Qed.

(** What a run returns is the list of records the scraper holds. *)
Lemma scrape_jobs_returned (d : Disk) (fuel : nat) (max_jobs : Z)
  (jobs : list JobPosting) :
  (scrape_jobs urljoin w fuel max_jobs (__init__ d)).1 = Some jobs ->
  jobs = jobs_scraped (scrape_jobs urljoin w fuel max_jobs (__init__ d)).2.
Proof.
  unfold scrape_jobs, login. destruct (login_ok w); cbn [negb].
  - destruct (scrape_loop _ _ _ _ _ _) as [m' | m' | m']; cbn [fst snd];
      [|discriminate | discriminate]. intros [= <-]. reflexivity.
  - cbn [fst snd]. intros [= <-]. reflexivity.
Qed.

End WalkInvariant.

Lemma StronglySorted_lt_NoDup (l : list Z) :
  StronglySorted Z.lt l -> List.NoDup l.
Proof.
  induction 1 as [|x l Hs IH Hx]; constructor; [|exact IH].
  intros Hin. rewrite Forall_forall in Hx.
  apply list_elem_of_In in Hin. specialize (Hx x Hin). lia.
Qed.

(** A run that returns has left the loop in the state of a finished walk,
    and then saved the cursor. *)
Lemma scrape_jobs_finished (urljoin : string -> string -> string) (w : World)
  (d : Disk) (fuel : nat) (max_jobs : Z) (jobs : list JobPosting) :
  login_ok w = true ->
  (scrape_jobs urljoin w fuel max_jobs (__init__ d)).1 = Some jobs ->
  exists m',
    walk_post (current_job_id (__init__ d)) (load_existing_job_ids d)
      [base_url +:+ "/"] max_jobs m'
    /\ jobs = jobs_scraped m'
    /\ (scrape_jobs urljoin w fuel max_jobs (__init__ d)).2
       = save_after_loop w (current_job_id (__init__ d)) m'.
Proof.
  intros Hlogin. unfold scrape_jobs, login. rewrite Hlogin. cbn [negb].
  pose proof (scrape_loop_keeps_inv urljoin w _ _ _ max_jobs fuel 0 _
                (walk_inv_init d max_jobs)) as Hpost.
  destruct (scrape_loop w (extract_job_data urljoin w) fuel max_jobs 0
              (navigate (base_url +:+ "/") (__init__ d)))
    as [m' | m' | m']; cbn [machine_of fst snd] in *;
    [|discriminate | discriminate].
  intros [= <-]. exists m'. split; [exact Hpost|]. split; [|reflexivity].
  apply save_after_loop_frame.
Qed.

(** X5. A run of a freshly constructed scraper never returns two records
    with the same ID, and never a record whose ID was already in the
    duplicate set loaded from the disk. *)
Theorem walk_output_fresh (urljoin : string -> string -> string) (w : World)
  (d : Disk) (fuel : nat) (max_jobs : Z) (jobs : list JobPosting) :
  (scrape_jobs urljoin w fuel max_jobs (__init__ d)).1 = Some jobs ->
  List.NoDup (map job_id jobs)
  /\ forall job, In job jobs -> job_id job ∉ load_existing_job_ids d.
Proof.
  intros Hrun. apply scrape_jobs_returned in Hrun. subst jobs.
  destruct (login_ok w) eqn:Hlogin.
  - destruct (scrape_jobs_post urljoin w d fuel max_jobs Hlogin)
      as [_ _ Hrec Hsort _ _].
    split; [apply StronglySorted_lt_NoDup; exact Hsort|].
    intros job Hjob. rewrite Forall_forall in Hrec.
    apply list_elem_of_In in Hjob. apply (Hrec job Hjob).
  - unfold scrape_jobs, login. rewrite Hlogin. cbn.
    split; [constructor | intros job []].
Qed.

Lemma walk_output_fresh_witness :
  exists jobs,
    run_A.1 = Some jobs
    /\ List.NoDup (map job_id jobs)
    /\ forall job, In job jobs -> job_id job ∉ load_existing_job_ids no_files.
Proof.
  destruct run_A.1 as [jobs|] eqn:Hrun; [|vm_compute in Hrun; discriminate].
  exists jobs. split; [reflexivity|].
  exact (walk_output_fresh simple_urljoin world_A no_files 10 200 jobs Hrun).
Defined.

(** X6. Every record a run returns passed the validator (it is not
    classified empty), carries the address of the page of its own ID, and
    has an ID at or above the ID the run started from; the records come
    in strictly increasing order of ID. *)
Theorem walk_output_valid_and_ordered (urljoin : string -> string -> string)
  (w : World) (d : Disk) (fuel : nat) (max_jobs : Z)
  (jobs : list JobPosting) :
  (scrape_jobs urljoin w fuel max_jobs (__init__ d)).1 = Some jobs ->
  StronglySorted Z.lt (map job_id jobs)
  /\ forall job,
       In job jobs ->
       _is_empty_job job = false
       /\ url job = job_page_url (job_id job)
       /\ current_job_id (__init__ d) <= job_id job.
Proof.
  intros Hrun. apply scrape_jobs_returned in Hrun. subst jobs.
  destruct (login_ok w) eqn:Hlogin.
  - destruct (scrape_jobs_post urljoin w d fuel max_jobs Hlogin)
      as [_ _ Hrec Hsort _ _].
    split; [exact Hsort|].
    intros job Hjob. rewrite Forall_forall in Hrec.
    apply list_elem_of_In in Hjob.
    destruct (Hrec job Hjob) as [Hr [_ [He Hu]]].
    split; [exact He|]. split; [exact Hu | lia].
  - unfold scrape_jobs, login. rewrite Hlogin. cbn.
    split; [constructor | intros job []].
Qed.

Lemma walk_output_valid_and_ordered_witness :
  exists jobs,
    run_A.1 = Some jobs
    /\ StronglySorted Z.lt (map job_id jobs)
    /\ forall job,
         In job jobs ->
         _is_empty_job job = false
         /\ url job = job_page_url (job_id job)
         /\ current_job_id (__init__ no_files) <= job_id job.
Proof.
  destruct run_A.1 as [jobs|] eqn:Hrun; [|vm_compute in Hrun; discriminate].
  exists jobs. split; [reflexivity|].
  exact (walk_output_valid_and_ordered simple_urljoin world_A no_files 10 200
           jobs Hrun).
Defined.

(** X7. A run never returns more records than its quota: at most
    [max_jobs], and none at all for a quota of zero or below. *)
Theorem walk_output_within_quota (urljoin : string -> string -> string)
  (w : World) (d : Disk) (fuel : nat) (max_jobs : Z)
  (jobs : list JobPosting) :
  (scrape_jobs urljoin w fuel max_jobs (__init__ d)).1 = Some jobs ->
  Z.of_nat (length jobs) <= Z.max max_jobs 0.
Proof.
  intros Hrun. apply scrape_jobs_returned in Hrun. subst jobs.
  destruct (login_ok w) eqn:Hlogin.
  - destruct (scrape_jobs_post urljoin w d fuel max_jobs Hlogin)
      as [_ _ _ _ _ Hquota]. exact Hquota.
  - unfold scrape_jobs, login. rewrite Hlogin. cbn. lia.
Qed.

Lemma walk_output_within_quota_witness :
  exists jobs,
    (scrape_jobs simple_urljoin world_A 10 2 (__init__ no_files)).1
    = Some jobs
    /\ Z.of_nat (length jobs) <= Z.max 2 0.
Proof.
  destruct (scrape_jobs simple_urljoin world_A 10 2 (__init__ no_files)).1
    as [jobs|] eqn:Hrun; [|vm_compute in Hrun; discriminate].
  exists jobs. split; [reflexivity|].
  exact (walk_output_within_quota simple_urljoin world_A no_files 10 2 jobs
           Hrun).
Defined.

(** X8. After a successful login the walk fetches the job pages of
    consecutive IDs, starting at the scraper's start ID, each once and in
    order, with no gap: the navigation history is the home page followed
    by the pages of [start], [start + 1], ..., and it ends at the current
    ID or just before it. *)
Theorem walk_fetches_consecutive_ids (urljoin : string -> string -> string)
  (w : World) (d : Disk) (fuel : nat) (max_jobs : Z) :
  login_ok w = true ->
  let start := current_job_id (__init__ d) in
  let final := (scrape_jobs urljoin w fuel max_jobs (__init__ d)).2 in
  exists n,
    history final = (base_url +:+ "/") :: map job_page_url (seqZ start n)
    /\ (n = current_job_id final - start
        \/ n = current_job_id final - start + 1).
Proof.
  intros Hlogin start final.
  destruct (scrape_jobs_post urljoin w d fuel max_jobs Hlogin)
    as [_ _ _ _ Hhist _].
  exact Hhist.
Qed.

Lemma walk_fetches_consecutive_ids_witness :
  exists n,
    history run_A.2 = (base_url +:+ "/") :: map job_page_url (seqZ 795 n)
    /\ (n = current_job_id run_A.2 - 795
        \/ n = current_job_id run_A.2 - 795 + 1).
Proof.
  exact (walk_fetches_consecutive_ids simple_urljoin world_A no_files 10 200
           eq_refl).
Defined.

(** X9. When the very first ID of a run gives no record (its fetch
    raises, or its page is classified as a redirect), the run returns no
    record and writes nothing: the disk, cursor file included, is exactly
    as the scraper found it, and the current ID has not moved. *)
Theorem nothing_found_leaves_disk (urljoin : string -> string -> string)
  (w : World) (d : Disk) (fuel : nat) (max_jobs : Z) :
  login_ok w = true ->
  0 < max_jobs ->
  (browse w (job_page_url (current_job_id (__init__ d))) = FetchRaises
   \/ exists current_url soup,
        browse w (job_page_url (current_job_id (__init__ d)))
        = FetchPage current_url soup
        /\ is_redirected_to_home base_url current_url = true) ->
  let out := scrape_jobs urljoin w (S fuel) max_jobs (__init__ d) in
  out.1 = Some []
  /\ disk out.2 = d
  /\ current_job_id out.2 = current_job_id (__init__ d).
Proof.
  intros Hlogin Hmax Hpage out. unfold out, scrape_jobs, login.
  rewrite Hlogin. cbn [negb].
  set (m0 := navigate (base_url +:+ "/") (__init__ d)).
  assert (Hx : extract_job_data urljoin w m0 (current_job_id m0)
               = (NoJob, navigate (job_page_url (current_job_id m0)) m0)).
  { destruct Hpage as [Hraise | [cur [soup [Hp Hred]]]].
    - apply extract_job_data_raises. exact Hraise.
    - eapply extract_job_data_redirect; eassumption. }
  rewrite (scrape_loop_stop w (extract_job_data urljoin w) fuel max_jobs 0
             m0 _ Hmax Hx).
  rewrite save_progress_empty by reflexivity.
  unfold save_after_loop. cbn.
  rewrite Z.gtb_ltb, Z.ltb_irrefl. cbn. auto.
Qed.

Lemma nothing_found_leaves_disk_witness :
  run_C.1 = Some []
  /\ disk run_C.2 = no_files
  /\ current_job_id run_C.2 = current_job_id (__init__ no_files).
Proof.
  apply (nothing_found_leaves_disk simple_urljoin world_C no_files 9 200).
  - reflexivity.
  - lia.
  - left. reflexivity.
Defined.

(** X10. A run that returns at least one record has persisted the cursor,
    at the ID just below the scraper's current ID, and no returned record
    has an ID above that cursor. *)
Theorem cursor_covers_output (urljoin : string -> string -> string)
  (w : World) (d : Disk) (fuel : nat) (max_jobs : Z)
  (jobs : list JobPosting) :
  (scrape_jobs urljoin w fuel max_jobs (__init__ d)).1 = Some jobs ->
  jobs <> [] ->
  let final := (scrape_jobs urljoin w fuel max_jobs (__init__ d)).2 in
  exists state,
    state_file (disk final) = SF_json state
    /\ last_job_id state = Some (current_job_id final - 1)
    /\ forall job, In job jobs -> job_id job <= current_job_id final - 1.
Proof.
  intros Hrun Hne final.
  destruct (login_ok w) eqn:Hlogin.
  - destruct (scrape_jobs_finished urljoin w d fuel max_jobs jobs Hlogin Hrun)
      as [m' [[_ _ Hrec _ _ _] [-> Hfinal]]].
    unfold final. rewrite Hfinal. clear Hfinal final Hrun.
    rewrite Forall_forall in Hrec.
    assert (Hpast : current_job_id (__init__ d) < current_job_id m').
    { destruct (jobs_scraped m') as [|job jobs] eqn:Hjobs; [contradiction|].
      destruct (Hrec job) as [Hr _]; [left|lia]. }
    unfold save_after_loop. apply Z.gtb_lt in Hpast. rewrite Hpast.
    rewrite save_writes_cursor. eexists. split; [reflexivity|].
    split; [reflexivity|].
    intros job Hjob. apply list_elem_of_In in Hjob.
    destruct (Hrec job Hjob) as [Hr _].
    change (current_job_id (save_last_job_id w m' (current_job_id m' - 1)))
      with (current_job_id m').
    lia.
  - exfalso. apply Hne. revert Hrun. unfold scrape_jobs, login.
    rewrite Hlogin. cbn. congruence.
Qed.

Lemma cursor_covers_output_witness :
  exists jobs state,
    run_A.1 = Some jobs
    /\ state_file (disk run_A.2) = SF_json state
    /\ last_job_id state = Some (current_job_id run_A.2 - 1)
    /\ forall job, In job jobs -> job_id job <= current_job_id run_A.2 - 1.
Proof.
  destruct run_A.1 as [jobs|] eqn:Hrun; [|vm_compute in Hrun; discriminate].
  destruct (cursor_covers_output simple_urljoin world_A no_files 10 200 jobs
              Hrun) as [state H].
  - intros ->. vm_compute in Hrun. discriminate Hrun.
  - exists jobs, state. split; [reflexivity | exact H].
Defined.

(** X11. The [--reset] switch of the runner forgets the cursor but not
    the duplicate set: the scraper constructed afterwards starts at the
    initial ID, still loads the IDs of the raw-records files, and so a
    run after a reset returns no record whose ID is in those files. *)
Theorem reset_restarts_but_keeps_duplicates
  (urljoin : string -> string -> string) (w : World) (d : Disk)
  (fuel : nat) (max_jobs : Z) :
  current_job_id (__init__ (reset_state d)) = initial_job_id
  /\ existing_job_ids (__init__ (reset_state d)) = load_existing_job_ids d
  /\ forall jobs job,
       (scrape_jobs urljoin w fuel max_jobs (__init__ (reset_state d))).1
       = Some jobs ->
       In job jobs ->
       initial_job_id <= job_id job
       /\ job_id job ∉ load_existing_job_ids d.
Proof.
  split; [reflexivity|]. split; [reflexivity|].
  intros jobs job Hrun Hjob.
  apply scrape_jobs_returned in Hrun. subst jobs.
  destruct (login_ok w) eqn:Hlogin.
  - destruct (scrape_jobs_post urljoin w (reset_state d) fuel max_jobs Hlogin)
      as [_ _ Hrec _ _ _].
    rewrite Forall_forall in Hrec. apply list_elem_of_In in Hjob.
    destruct (Hrec job Hjob) as [Hr [Hk _]].
    split; [exact (proj1 Hr) | exact Hk].
  - revert Hjob. unfold scrape_jobs, login. rewrite Hlogin. cbn. intros [].
Qed.

Lemma reset_restarts_but_keeps_duplicates_witness :
  exists jobs,
    (scrape_jobs simple_urljoin world_A 10 200
       (__init__ (reset_state disk_at_800))).1 = Some jobs
    /\ forall job,
         In job jobs ->
         initial_job_id <= job_id job
         /\ job_id job ∉ load_existing_job_ids disk_at_800.
Proof.
  destruct (scrape_jobs simple_urljoin world_A 10 200
              (__init__ (reset_state disk_at_800))).1
    as [jobs|] eqn:Hrun; [|vm_compute in Hrun; discriminate].
  exists jobs. split; [reflexivity|].
  intros job Hjob.
  destruct (reset_restarts_but_keeps_duplicates simple_urljoin world_A
              disk_at_800 10 200) as [_ [_ Hout]].
  exact (Hout jobs job Hrun Hjob).
Defined.

(** X12. The walk always ends: whatever the site serves, the loop of a
    freshly constructed scraper has stopped within a number of iterations
    bounded by the quota plus the number of already known IDs at or above
    the start ID. It stops by completing, or by an exception of the feed
    generator on a stopping branch, called on the records collected, of
    which there is then at least one; so when the feeds are always
    rendered without an exception, the run returns its list. *)
Theorem walk_terminates (urljoin : string -> string -> string) (w : World)
  (d : Disk) (fuel : nat) (max_jobs : Z) :
  (Z.to_nat max_jobs + size (ahead (__init__ d)) < fuel)%nat ->
  let loop :=
    scrape_loop w (extract_job_data urljoin w) fuel max_jobs 0
      (login w (__init__ d)).2 in
  (exists m,
      loop = Finished m
      \/ (loop = Raised m
          /\ jobs_scraped m <> []
          /\ feeds_raise w (jobs_scraped m) = true))
  /\ ((forall jobs, feeds_raise w jobs = false) ->
      exists jobs,
        (scrape_jobs urljoin w fuel max_jobs (__init__ d)).1 = Some jobs).
Proof.
  intros Hfuel loop.
  assert (Hbound : (Z.to_nat (max_jobs - 0)
                    + size (ahead (login w (__init__ d)).2) < fuel)%nat).
  { rewrite Z.sub_0_r. exact Hfuel. }
  split.
  - destruct (scrape_loop_terminates urljoin w max_jobs fuel 0 _ Hbound)
      as [m [Hm | Hm]]; exists m; [left; exact Hm | right].
    split; [exact Hm|].
    eapply scrape_loop_raised. exact Hm.
  - intros Hfeeds. unfold scrape_jobs, login.
    destruct (login_ok w); cbn [negb]; [|eauto].
    destruct (scrape_loop_finishes urljoin w max_jobs fuel 0 _ Hfeeds
                Hbound) as [m Hm].
    cbn [login snd] in Hm. rewrite Hm. eauto.
Qed.

Lemma walk_terminates_witness :
  exists jobs,
    (scrape_jobs simple_urljoin world_located 201 200
       (__init__ no_files)).1 = Some jobs.
Proof.
  destruct (walk_terminates simple_urljoin world_located no_files 201 200)
    as [_ Hreturns]; [vm_compute; lia|].
  apply Hreturns. reflexivity.
Defined.

(** ** Job pages and the page classifier *)

Section JobPageAddress.







End JobPageAddress.



(** ** Image addresses *)

Section ImageAddress.

Variable urljoin : string -> string -> string.
Variable soup : Soup.

Lemma extract_image_cons (sel : string) (rest : list string) :
  _extract_image_url urljoin soup (sel :: rest)
  = match select_one soup sel with
    | Some img =>
        match el_get img "src" with
        | Some src =>
            if PyStr.truthy src then
              if PyStr.startswith src "http" then Some src
              else Some (urljoin base_url src)
            else _extract_image_url urljoin soup rest
        | None => _extract_image_url urljoin soup rest
        end
    | None => _extract_image_url urljoin soup rest
    end.
Proof. reflexivity. Qed.

Lemma extract_image_miss (sel : string) (rest : list string) :
  no_src soup sel ->
  _extract_image_url urljoin soup (sel :: rest)
  = _extract_image_url urljoin soup rest.
Proof.
  intros Hno. rewrite extract_image_cons.
  destruct (select_one soup sel) as [img|] eqn:Hi; [|reflexivity].
  destruct (el_get img "src") as [src|] eqn:Hs; [|reflexivity].
  rewrite (Hno img src Hi Hs). reflexivity.
Qed.

Lemma extract_image_hit (sel src : string) (rest : list string) :
  has_src soup sel src ->
  _extract_image_url urljoin soup (sel :: rest)
  = Some (if PyStr.startswith src "http" then src
          else urljoin base_url src).
Proof.
  intros [img [Hi [Hs Hne]]]. rewrite extract_image_cons, Hi, Hs.
  apply truthy_true in Hne. rewrite Hne.
  destruct (PyStr.startswith src "http"); reflexivity.
Qed.

Lemma extract_image_skip (before rest : list string) :
  Forall (no_src soup) before ->
  _extract_image_url urljoin soup (before ++ rest)
  = _extract_image_url urljoin soup rest.
Proof.
  induction 1 as [|sel before Hsel _ IH]; [reflexivity|].
  rewrite <- app_comm_cons, extract_image_miss by assumption. exact IH.
Qed.

End ImageAddress.

(** X14. Image extraction takes the first locator, in order, whose
    element has a non-empty [src]: an address that starts with "http" is
    returned unchanged, any other is resolved against the base URL; when
    no locator gives an address the result is absent. *)
Theorem extract_image_url_first_match (urljoin : string -> string -> string)
  (soup : Soup) (selectors : list string) :
  (forall before sel after src,
      selectors = before ++ sel :: after ->
      Forall (no_src soup) before ->
      has_src soup sel src ->
      (PyStr.startswith src "http" = true ->
       _extract_image_url urljoin soup selectors = Some src)
      /\ (PyStr.startswith src "http" = false ->
          _extract_image_url urljoin soup selectors
          = Some (urljoin base_url src)))
  /\ (Forall (no_src soup) selectors ->
      _extract_image_url urljoin soup selectors = None).
Proof.
  split.
  - intros before sel after src -> Hbefore Hsel.
    rewrite extract_image_skip by assumption.
    rewrite (extract_image_hit urljoin soup sel src after Hsel).
    split; intros ->; reflexivity.
  - intros Hall. rewrite <- (app_nil_r selectors).
    rewrite extract_image_skip by assumption. reflexivity.
Qed.

Lemma extract_image_url_first_match_witness :
  _extract_image_url simple_urljoin image_page image_selectors
  = Some "https://espritconnect.com/media/a.png"
  /\ _extract_image_url simple_urljoin image_page [".job-header img"]
     = Some "https://cdn.example/b.png"
  /\ _extract_image_url simple_urljoin image_page company_logo_selectors
     = None.
Proof.
  split; [|split].
  - destruct (extract_image_url_first_match simple_urljoin image_page
                image_selectors) as [Hfirst _].
    destruct (Hfirst [".job-image img"] ".company-logo img"
                [".job-header img"] "/media/a.png") as [_ Hrel].
    + reflexivity.
    + constructor; [|constructor].
      intros img src Himg. vm_compute in Himg. discriminate Himg.
    + eexists. split; [reflexivity|]. split; [reflexivity | discriminate].
    + apply Hrel. reflexivity.
  - destruct (extract_image_url_first_match simple_urljoin image_page
                [".job-header img"]) as [Hfirst _].
    destruct (Hfirst [] ".job-header img" [] "https://cdn.example/b.png")
      as [Habs _].
    + reflexivity.
    + constructor.
    + eexists. split; [reflexivity|]. split; [reflexivity | discriminate].
    + apply Habs. reflexivity.
  - destruct (extract_image_url_first_match simple_urljoin image_page
                company_logo_selectors) as [_ Hnone].
    apply Hnone. repeat constructor;
      intros img src Himg; vm_compute in Himg; discriminate Himg.
Defined.

(** ** Extraction and the validator together *)

Section ExtractionOutcome.

Variable urljoin : string -> string -> string.
Variable w : World.




End ExtractionOutcome.





(** ** Truncation for the feeds *)

Section Truncation.

Lemma string_length_app (s t : string) :
  String.length (s +:+ t) = (String.length s + String.length t)%nat.
Proof.
  induction s as [|c s IH]; [reflexivity|].
  rewrite string_app_cons. simpl. rewrite IH. reflexivity.
Qed.

Lemma slice_to_all (n : nat) (s : string) :
  (String.length s <= n)%nat -> PyStr.slice_to n s = s.
Proof.
  revert s. induction n as [|n IH]; intros [|c s] H; simpl in *;
    try reflexivity; [lia|]. rewrite IH by lia. reflexivity.
Qed.

Lemma slice_to_exact (n : nat) (s : string) :
  (n <= String.length s)%nat -> String.length (PyStr.slice_to n s) = n.
Proof.
  revert s. induction n as [|n IH]; intros [|c s] H; simpl in *;
    try reflexivity; [lia|]. rewrite IH by lia. reflexivity.
Qed.

Lemma slice_to_prefix (n : nat) (s : string) :
  exists rest, s = PyStr.slice_to n s +:+ rest.
Proof.
  revert s. induction n as [|n IH]; intros s.
  - exists s. destruct s; reflexivity.
  - destruct s as [|c s]; [exists ""; reflexivity|].
    destruct (IH s) as [rest Hrest]. exists rest. simpl.
    rewrite string_app_cons, <- Hrest. reflexivity.
Qed.

Lemma slice_to_get (n i : nat) (s : string) (c : ascii) :
  String.get i (PyStr.slice_to n s) = Some c -> String.get i s = Some c.
Proof.
  revert i s. induction n as [|n IH]; intros i s; [discriminate|].
  destruct s as [|d s]; [discriminate|].
  destruct i as [|i]; simpl; [auto | apply IH].
Qed.

(** What [rfind_from] returns: -1, or a position in range that holds the
    character. *)
Lemma rfind_from_spec (c : ascii) (s : string) (offset : Z) :
  0 <= offset ->
  rfind_from c s offset = -1
  \/ (offset <= rfind_from c s offset
                < offset + Z.of_nat (String.length s)
      /\ String.get (Z.to_nat (rfind_from c s offset - offset)) s = Some c).
Proof.
  revert offset. induction s as [|d s IH]; intros offset Hoff;
    [left; reflexivity|].
  cbn [rfind_from]. destruct (IH (offset + 1)) as [Hnone | [Hr Hget]];
    [lia| |].
  - rewrite Hnone. cbn. destruct (Ascii.eqb_spec d c) as [-> | _];
      [right | left; reflexivity].
    rewrite Z.sub_diag. cbn [String.length]. split; [lia | reflexivity].
  - destruct (Z.leb_spec 0 (rfind_from c s (offset + 1))) as [_ | Hneg];
      [|lia].
    right. cbn [String.length]. split; [lia|].
    replace (Z.to_nat (rfind_from c s (offset + 1) - offset))
      with (S (Z.to_nat (rfind_from c s (offset + 1) - (offset + 1))))
      by lia.
    exact Hget.
Qed.

Lemma py_slice_to_nonneg (k : Z) (s : string) :
  0 <= k -> py_slice_to k s = PyStr.slice_to (Z.to_nat k) s.
Proof.
  intros Hk. unfold py_slice_to.
  destruct (Z.ltb_spec k 0); [lia | reflexivity].
Qed.

Lemma rfind_spec (s : string) (c : ascii) (stop : Z) :
  0 <= stop <= PyStr.len s ->
  rfind s c stop = -1
  \/ (0 <= rfind s c stop < stop
      /\ String.get (Z.to_nat (rfind s c stop)) s = Some c).
Proof.
  intros Hstop. unfold rfind. rewrite py_slice_to_nonneg by lia.
  destruct (rfind_from_spec c (PyStr.slice_to (Z.to_nat stop) s) 0)
    as [Hnone | [Hr Hget]]; [lia | left; exact Hnone | right].
  rewrite slice_to_exact in Hr by (unfold PyStr.len in Hstop; lia).
  rewrite Z.sub_0_r in Hget. split; [lia|].
  eapply slice_to_get. exact Hget.
Qed.

End Truncation.

Lemma smart_truncate_short (above_four_fifths : Z -> Z -> bool)
  (text : string) (max_length : Z) :
  PyStr.len text <= max_length ->
  smart_truncate above_four_fifths text max_length = text.
Proof.
  intros Hshort. unfold smart_truncate.
  apply Z.leb_le in Hshort. rewrite Hshort. reflexivity.
Qed.

Lemma smart_truncate_cut (above_four_fifths : Z -> Z -> bool)
  (text : string) (max_length : Z) :
  0 <= max_length < PyStr.len text ->
  (forall a b, above_four_fifths a b = true -> 0 <= b -> 0 <= a) ->
  exists k rest,
    0 <= k <= max_length
    /\ text = PyStr.slice_to (Z.to_nat k) text +:+ rest
    /\ smart_truncate above_four_fifths text max_length
       = PyStr.slice_to (Z.to_nat k) text +:+ "..."
    /\ PyStr.len (smart_truncate above_four_fifths text max_length)
       = k + 3
    /\ (k = max_length
        \/ String.get (Z.to_nat k) text = Some " "%char).
Proof.
  intros Hlong Habove. unfold smart_truncate.
  destruct (Z.leb_spec (PyStr.len text) max_length) as [Hle | _]; [lia|].
  assert (Hshape : forall k,
             0 <= k <= max_length ->
             (k = max_length
              \/ String.get (Z.to_nat k) text = Some " "%char) ->
             exists k' rest,
               0 <= k' <= max_length
               /\ text = PyStr.slice_to (Z.to_nat k') text +:+ rest
               /\ py_slice_to k text +:+ "..."
                  = PyStr.slice_to (Z.to_nat k') text +:+ "..."
               /\ PyStr.len (py_slice_to k text +:+ "...") = k' + 3
               /\ (k' = max_length
                   \/ String.get (Z.to_nat k') text = Some " "%char)).
  { intros k Hk Hcut. destruct (slice_to_prefix (Z.to_nat k) text)
      as [rest Hrest].
    exists k, rest. rewrite py_slice_to_nonneg by lia.
    split; [exact Hk|]. split; [exact Hrest|]. split; [reflexivity|].
    split; [|exact Hcut].
    unfold PyStr.len in *. rewrite string_length_app, slice_to_exact by lia.
    simpl. lia. }
  cbv zeta.
  destruct (above_four_fifths (rfind text " " max_length) max_length)
    eqn:Hcmp.
  - apply Hshape.
    + destruct (rfind_spec text " " max_length) as [Hnone | [Hr _]];
        [lia | | lia].
      apply Habove in Hcmp; lia.
    + destruct (rfind_spec text " " max_length) as [Hnone | [_ Hget]];
        [lia | | right; exact Hget].
      apply Habove in Hcmp; lia.
  - apply Hshape; [lia | left; reflexivity].
Qed.

(** X17. [smart_truncate] leaves a text within the limit unchanged. A
    longer text (for a limit that is not negative) becomes its first [k]
    characters followed by "...", where [k] is at most the limit, so the
    result has at most limit + 3 characters; and either the cut is at the
    limit, or it is at a space of the text. *)
Theorem smart_truncate_shape (above_four_fifths : Z -> Z -> bool)
  (text : string) (max_length : Z) :
  (PyStr.len text <= max_length ->
   smart_truncate above_four_fifths text max_length = text)
  /\ (0 <= max_length < PyStr.len text ->
      (forall a b, above_four_fifths a b = true -> 0 <= b -> 0 <= a) ->
      exists k rest,
        0 <= k <= max_length
        /\ text = PyStr.slice_to (Z.to_nat k) text +:+ rest
        /\ smart_truncate above_four_fifths text max_length
           = PyStr.slice_to (Z.to_nat k) text +:+ "..."
        /\ PyStr.len (smart_truncate above_four_fifths text max_length)
           = k + 3
        /\ (k = max_length
            \/ String.get (Z.to_nat k) text = Some " "%char)).
Proof.
  split.
  - apply smart_truncate_short.
  - apply smart_truncate_cut.
Qed.

Lemma smart_truncate_shape_witness :
  smart_truncate exact_four_fifths "alpha beta gamma delta" 18
  = "alpha beta gamma..."
  /\ exists k rest,
       0 <= k <= 18
       /\ "alpha beta gamma delta"
          = PyStr.slice_to (Z.to_nat k) "alpha beta gamma delta" +:+ rest
       /\ smart_truncate exact_four_fifths "alpha beta gamma delta" 18
          = PyStr.slice_to (Z.to_nat k) "alpha beta gamma delta" +:+ "..."
       /\ PyStr.len (smart_truncate exact_four_fifths
                       "alpha beta gamma delta" 18) = k + 3
       /\ (k = 18
           \/ String.get (Z.to_nat k) "alpha beta gamma delta"
              = Some " "%char).
Proof.
  split; [vm_compute; reflexivity|].
  destruct (smart_truncate_shape exact_four_fifths "alpha beta gamma delta"
              18) as [_ Hlong].
  apply Hlong.
  - vm_compute. split; [discriminate | reflexivity].
  - intros a b Hcmp Hb. unfold exact_four_fifths in Hcmp.
    apply Z.ltb_lt in Hcmp. lia.
Defined.

(** The description of an extracted record is within the cap. *)
Lemma extracted_description_short (urljoin : string -> string -> string)
  (w : World) (m m' : Machine) (id : Z) (job : JobPosting) :
  extract_job_data urljoin w m id = (Job job, m') ->
  PyStr.len (description job) <= 1000.
Proof.
  intros H. apply extract_job_data_job in H
    as [cur [soup [_ [_ [Hjob _]]]]].
  destruct (extract_text_some soup title_selectors "Unknown Title")
    as [t [Ht _]].
  destruct (extract_text_some soup company_selectors "Unknown Company")
    as [c [Hc _]].
  destruct (extract_text_some soup location_selectors "Unknown Location")
    as [l [Hl _]].
  destruct (extract_text_some soup description_selectors
              "No description available") as [d [Hd _]].
  destruct (extract_text_some soup requirements_selectors
              "No requirements specified") as [r [Hr _]].
  destruct (extract_text_some soup date_selectors "Unknown Date")
    as [p [Hp _]].
  destruct (parse_job_page_eq urljoin (now w (clock m)) soup id
              (job_page_url id) t c l d r p Ht Hc Hl Hd Hr Hp)
    as [x [y [z Heq]]].
  rewrite Heq in Hjob. apply (inj Some) in Hjob. subst job.
  unfold description, PyStr.len.
  pose proof (slice_to_length 1000 (PyStr.strip d)) as Hlen.
  apply Nat2Z.inj_le in Hlen. exact Hlen.
Qed.

(** X18. The feeds never cut a description the scraper produced: for
    every extracted record the HTML index shows the description as it is,
    and so does the JSON summary when the record has the default
    requirements text. *)
Theorem feeds_keep_scraped_description
  (above_four_fifths : Z -> Z -> bool)
  (urljoin : string -> string -> string) (w : World) (m m' : Machine)
  (id : Z) (job : JobPosting) :
  extract_job_data urljoin w m id = (Job job, m') ->
  html_card_description above_four_fifths (description job)
  = description job
  /\ (requirements job = "No requirements specified" ->
      json_feed_summary above_four_fifths (description job)
        (requirements job) = description job).
Proof.
  intros Hjob.
  pose proof (extracted_description_short urljoin w m m' id job Hjob)
    as Hlen.
  split.
  - apply smart_truncate_short. exact Hlen.
  - intros ->. unfold json_feed_summary.
    rewrite String.eqb_refl, andb_false_r.
    apply Z.leb_le in Hlen. rewrite Hlen. reflexivity.
Qed.

Lemma feeds_keep_scraped_description_witness :
  exists job m',
    extract_job_data simple_urljoin world_A (__init__ no_files) 795
    = (Job job, m')
    /\ html_card_description exact_four_fifths (description job)
       = description job
    /\ json_feed_summary exact_four_fifths (description job)
         (requirements job) = description job.
Proof.
  destruct (extract_job_data simple_urljoin world_A (__init__ no_files) 795)
    as [[| |job] m'] eqn:Hjob;
    [vm_compute in Hjob; discriminate Hjob
    |vm_compute in Hjob; discriminate Hjob|].
  exists job, m'. split; [reflexivity|].
  destruct (feeds_keep_scraped_description exact_four_fifths simple_urljoin
              world_A (__init__ no_files) m' 795 job Hjob) as [Hhtml Hjson].
  split; [exact Hhtml|]. apply Hjson.
  vm_compute in Hjob. injection Hjob as <- _. reflexivity.
Defined.

(** X19. The summary of a feed item never has more than 1003 characters,
    whatever the description and the requirements are. *)
Theorem json_feed_summary_bounded (above_four_fifths : Z -> Z -> bool)
  (description requirements : string) :
  (forall a b, above_four_fifths a b = true -> 0 <= b -> 0 <= a) ->
  PyStr.len (json_feed_summary above_four_fifths description requirements)
  <= 1003.
Proof.
  intros Habove. unfold json_feed_summary. cbv zeta.
  match goal with
  | |- context [PyStr.len ?t <=? 1000] => set (combined_text := t)
  end.
  destruct (Z.leb_spec (PyStr.len combined_text) 1000) as [Hle | Hgt];
    [lia|].
  destruct (smart_truncate_cut above_four_fifths combined_text 1000)
    as [k [rest [Hk [_ [_ [Hlen _]]]]]]; [lia | exact Habove |].
  rewrite Hlen. lia.
Qed.

Lemma json_feed_summary_bounded_witness :
  PyStr.len (json_feed_summary exact_four_fifths
               (repeat_string 90 "0123456789")
               (repeat_string 30 "abcde fghi"))
  <= 1003.
Proof.
  apply json_feed_summary_bounded.
  intros a b Hcmp Hb. unfold exact_four_fifths in Hcmp.
  apply Z.ltb_lt in Hcmp. lia.
Defined.

(** ** What a run leaves in the raw-records files *)

Section SavedRecords.

Variable urljoin : string -> string -> string.
Variable w : World.

(** Extraction writes at most the cursor file. *)
Lemma extract_job_data_data_files (m : Machine) (id : Z) :
  data_jobs_raw (disk (extract_job_data urljoin w m id).2)
  = data_jobs_raw (disk m)
  /\ jobs_raw (disk (extract_job_data urljoin w m id).2) = jobs_raw (disk m).
Proof.
  unfold extract_job_data.
  destruct (browse w (job_page_url id)) as [|cur soup]; [auto|].
  destruct (is_redirected_to_home base_url cur); [auto|].
  destruct (parse_job_page _ _ soup id _) as [job|]; [|auto].
  destruct (_is_empty_job job); auto.
Qed.

Lemma loop_body_job_disk (job : JobPosting) (counter : Z) (m : Machine) :
  disk (loop_body_job job counter m).1 = disk m.
Proof.
  unfold loop_body_job, keep_or_skip. destruct (bool_decide _); reflexivity.
Qed.

Lemma loop_body_job_counter (job : JobPosting) (counter : Z) (m : Machine) :
  counter = Z.of_nat (length (jobs_scraped m)) ->
  (loop_body_job job counter m).2
  = Z.of_nat (length (jobs_scraped (loop_body_job job counter m).1)).
Proof.
  intros ->. unfold loop_body_job, keep_or_skip.
  destruct (bool_decide _); cbn; [reflexivity|].
  rewrite length_app. simpl. lia.
Qed.

Lemma save_progress_jobs_raw (m : Machine) :
  jobs_raw (disk (machine_of (save_progress w m))) = jobs_raw (disk m).
Proof.
  rewrite save_progress_machine. destruct (jobs_scraped m); reflexivity.
Qed.

Lemma save_progress_data (m : Machine) :
  jobs_scraped m <> [] ->
  data_jobs_raw (disk (machine_of (save_progress w m)))
  = DF_jobs (map (fun job => Some (job_id job)) (jobs_scraped m)).
Proof.
  intros Hne. rewrite save_progress_machine.
  destruct (jobs_scraped m) as [|job jobs] eqn:Hjobs; [contradiction|].
  cbn [save_results disk tick set_disk data_jobs_raw]. rewrite Hjobs.
  reflexivity.
Qed.

(** The loop and the raw-records files: [jobs_raw.json] is never
    written; [data/jobs_raw.json] is left alone when the loop ends with
    the quota reached, and holds this run's records when the loop ends
    earlier with something collected. *)
Lemma scrape_loop_data_files (max_jobs : Z) (fuel : nat) :
  forall (counter : Z) (m : Machine),
    counter = Z.of_nat (length (jobs_scraped m)) ->
    let r :=
      scrape_loop w (extract_job_data urljoin w) fuel max_jobs counter m in
    jobs_raw (disk (machine_of r)) = jobs_raw (disk m)
    /\ (max_jobs <= Z.of_nat (length (jobs_scraped (machine_of r))) ->
        data_jobs_raw (disk (machine_of r)) = data_jobs_raw (disk m))
    /\ (forall m',
          r = Finished m' ->
          Z.of_nat (length (jobs_scraped m')) < max_jobs ->
          jobs_scraped m' <> [] ->
          data_jobs_raw (disk m')
          = DF_jobs (map (fun job => Some (job_id job)) (jobs_scraped m'))).
Proof.
  induction fuel as [|fuel IH]; intros counter m Hcount; cbv zeta.
  - cbn. split; [reflexivity|]. split; [reflexivity | discriminate].
  - cbn [scrape_loop].
    destruct (Z.ltb_spec counter max_jobs) as [Hlt | Hge].
    + destruct (extract_job_data_frame urljoin w m (current_job_id m))
        as [Hj _].
      destruct (extract_job_data_data_files m (current_job_id m))
        as [Hd Hr].
      destruct (extract_job_data urljoin w m (current_job_id m))
        as [[| |job] m1]; cbn [snd] in Hj, Hd, Hr.
      * rewrite save_progress_jobs_raw, save_progress_jobs.
        split; [exact Hr|]. split; [rewrite Hj; lia|].
        intros m' Hm' _. apply (f_equal machine_of) in Hm'.
        cbn [machine_of] in Hm'. subst m'. rewrite save_progress_jobs.
        apply save_progress_data.
      * rewrite save_progress_jobs_raw, save_progress_jobs.
        split; [exact Hr|]. split; [rewrite Hj; lia|].
        intros m' Hm' _. apply (f_equal machine_of) in Hm'.
        cbn [machine_of] in Hm'. subst m'. rewrite save_progress_jobs.
        apply save_progress_data.
      * pose proof (loop_body_job_disk job counter m1) as Hdisk.
        pose proof (loop_body_job_counter job counter m1
                      ltac:(rewrite Hj; exact Hcount)) as Hc2.
        destruct (loop_body_job job counter m1) as [m2 counter2].
        cbn [fst snd] in Hdisk, Hc2.
        specialize (IH counter2 m2 Hc2). cbv zeta in IH.
        rewrite Hdisk, Hd, Hr in IH. exact IH.
    + cbn [machine_of]. split; [reflexivity|]. split; [reflexivity|].
      intros m' [= <-]. lia.
Qed.

Lemma save_after_loop_data_files (start_id : Z) (m : Machine) :
  data_jobs_raw (disk (save_after_loop w start_id m))
  = data_jobs_raw (disk m)
  /\ jobs_raw (disk (save_after_loop w start_id m)) = jobs_raw (disk m).
Proof.
  unfold save_after_loop. destruct (current_job_id m >? start_id); auto.
Qed.

(** The same for a whole run of a freshly constructed scraper. *)
Lemma scrape_jobs_data_files (d : Disk) (fuel : nat) (max_jobs : Z)
  (jobs : list JobPosting) :
  (scrape_jobs urljoin w fuel max_jobs (__init__ d)).1 = Some jobs ->
  let final := (scrape_jobs urljoin w fuel max_jobs (__init__ d)).2 in
  jobs_raw (disk final) = jobs_raw d
  /\ (max_jobs <= Z.of_nat (length jobs) ->
      data_jobs_raw (disk final) = data_jobs_raw d)
  /\ (Z.of_nat (length jobs) < max_jobs -> jobs <> [] ->
      data_jobs_raw (disk final)
      = DF_jobs (map (fun job => Some (job_id job)) jobs)).
Proof.
  unfold scrape_jobs, login. destruct (login_ok w); cbn [negb].
  - pose proof (scrape_loop_data_files max_jobs fuel 0
                  (navigate (base_url +:+ "/") (__init__ d)) eq_refl)
      as Hloop.
    cbv zeta in Hloop.
    destruct (scrape_loop w (extract_job_data urljoin w) fuel max_jobs 0
                (navigate (base_url +:+ "/") (__init__ d)))
      as [m' | m' | m']; cbn [machine_of fst snd] in *;
      [|discriminate | discriminate].
    destruct Hloop as [Hraw [Hquota Hsaved]].
    destruct (save_after_loop_frame w
                (current_job_id (navigate (base_url +:+ "/") (__init__ d)))
                m') as [Hj _].
    destruct (save_after_loop_data_files
                (current_job_id (navigate (base_url +:+ "/") (__init__ d)))
                m') as [Hd Hr].
    rewrite Hj. intros [= <-]. rewrite Hd, Hr.
    split; [exact Hraw|]. split; [exact Hquota|].
    intros Hlt Hne. apply Hsaved; auto.
  - cbn. intros [= <-]. split; [reflexivity|]. split; [reflexivity|].
    intros _ Hne. contradiction.
Qed.

End SavedRecords.

(** The records a disk holds in [data/jobs_raw.json] are in the duplicate
    set loaded from it. *)
Lemma saved_records_are_known (d : Disk) (jobs : list JobPosting)
  (job : JobPosting) :
  data_jobs_raw d = DF_jobs (map (fun job => Some (job_id job)) jobs) ->
  In job jobs ->
  job_id job ∈ load_existing_job_ids d.
Proof.
  intros Hdata Hjob.
  assert (Hin : In (Some (job_id job))
                  (map (fun job => Some (job_id job)) jobs)).
  { apply in_map_iff. eauto. }
  apply elem_of_job_ids_of in Hin.
  unfold load_existing_job_ids, load_ids_from. rewrite Hdata.
  destruct jobs as [|j jobs]; [destruct Hjob | exact Hin].
Qed.

(** X20. [scrape_jobs] does not save the records of a run that ends with
    the quota reached: when the run returns [max_jobs] records, both
    raw-records files are exactly as they were before the run (only the
    cursor has been written), so those records exist only in the returned
    list. *)
Theorem quota_exit_saves_no_records (urljoin : string -> string -> string)
  (w : World) (d : Disk) (fuel : nat) (max_jobs : Z)
  (jobs : list JobPosting) :
  (scrape_jobs urljoin w fuel max_jobs (__init__ d)).1 = Some jobs ->
  Z.of_nat (length jobs) = max_jobs ->
  let final := (scrape_jobs urljoin w fuel max_jobs (__init__ d)).2 in
  data_jobs_raw (disk final) = data_jobs_raw d
  /\ jobs_raw (disk final) = jobs_raw d.
Proof.
  intros Hrun Hfull final.
  destruct (scrape_jobs_data_files urljoin w d fuel max_jobs jobs Hrun)
    as [Hraw [Hquota _]].
  split; [apply Hquota; lia | exact Hraw].
Qed.

Lemma quota_exit_saves_no_records_witness :
  exists jobs,
    (scrape_jobs simple_urljoin world_A 10 2 (__init__ no_files)).1
    = Some jobs
    /\ map job_id jobs = [795; 796]
    /\ data_jobs_raw
         (disk (scrape_jobs simple_urljoin world_A 10 2
                  (__init__ no_files)).2) = DF_absent.
Proof.
  destruct (scrape_jobs simple_urljoin world_A 10 2 (__init__ no_files)).1
    as [jobs|] eqn:Hrun; [|vm_compute in Hrun; discriminate].
  exists jobs. split; [reflexivity|].
  assert (Hids : map job_id jobs = [795; 796]).
  { vm_compute in Hrun. injection Hrun as <-. reflexivity. }
  split; [exact Hids|].
  destruct (quota_exit_saves_no_records simple_urljoin world_A no_files 10 2
              jobs Hrun) as [Hdata _]; [|exact Hdata].
  rewrite <- (length_map job_id), Hids. reflexivity.
Defined.

(** X21. No record is returned twice by consecutive runs: when a run
    returns some records without exhausting its quota, they are saved,
    and a second scraper constructed on the disk that run left (whatever
    the site serves then) returns no record with the ID of one of them. *)
Theorem consecutive_runs_do_not_repeat
  (urljoin : string -> string -> string) (w1 w2 : World) (d : Disk)
  (fuel1 fuel2 : nat) (max1 max2 : Z) (jobs1 jobs2 : list JobPosting) :
  (scrape_jobs urljoin w1 fuel1 max1 (__init__ d)).1 = Some jobs1 ->
  jobs1 <> [] ->
  Z.of_nat (length jobs1) < max1 ->
  (scrape_jobs urljoin w2 fuel2 max2
     (__init__ (disk (scrape_jobs urljoin w1 fuel1 max1 (__init__ d)).2))).1
  = Some jobs2 ->
  forall job1 job2,
    In job1 jobs1 -> In job2 jobs2 -> job_id job1 <> job_id job2.
Proof.
  intros Hrun1 Hne Hlt Hrun2 job1 job2 Hj1 Hj2 Heq.
  destruct (scrape_jobs_data_files urljoin w1 d fuel1 max1 jobs1 Hrun1)
    as [_ [_ Hsaved]].
  specialize (Hsaved Hlt Hne).
  set (d1 := disk (scrape_jobs urljoin w1 fuel1 max1 (__init__ d)).2) in *.
  pose proof (saved_records_are_known d1 jobs1 job1 Hsaved Hj1) as Hknown.
  apply scrape_jobs_returned in Hrun2. subst jobs2.
  destruct (login_ok w2) eqn:Hlogin.
  - destruct (scrape_jobs_post urljoin w2 d1 fuel2 max2 Hlogin)
      as [_ _ Hrec _ _ _].
    rewrite Forall_forall in Hrec. apply list_elem_of_In in Hj2.
    destruct (Hrec job2 Hj2) as [_ [Hfresh _]].
    apply Hfresh. rewrite <- Heq. exact Hknown.
  - revert Hj2. unfold scrape_jobs, login. rewrite Hlogin. cbn. intros [].
Qed.

Lemma consecutive_runs_do_not_repeat_witness :
  exists jobs1 jobs2,
    run_A.1 = Some jobs1
    /\ (scrape_jobs simple_urljoin world_located 10 2
          (__init__ (disk run_A.2))).1 = Some jobs2
    /\ map job_id jobs2 = [798; 799]
    /\ forall job1 job2,
         In job1 jobs1 -> In job2 jobs2 -> job_id job1 <> job_id job2.
Proof.
  destruct run_A.1 as [jobs1|] eqn:Hrun1;
    [|vm_compute in Hrun1; discriminate].
  destruct (scrape_jobs simple_urljoin world_located 10 2
              (__init__ (disk run_A.2))).1 as [jobs2|] eqn:Hrun2;
    [|vm_compute in Hrun2; discriminate].
  exists jobs1, jobs2. split; [reflexivity|]. split; [reflexivity|].
  split; [vm_compute in Hrun2; injection Hrun2 as <-; reflexivity|].
  apply (consecutive_runs_do_not_repeat simple_urljoin world_A world_located
           no_files 10 10 200 2 jobs1 jobs2 Hrun1).
  - intros ->. vm_compute in Hrun1. discriminate Hrun1.
  - vm_compute in Hrun1. injection Hrun1 as <-. vm_compute. reflexivity.
  - exact Hrun2.
Defined.

(** ** An exception of the feed generator on a stopping branch *)

Section FeedException.

Variable urljoin : string -> string -> string.
Variable w : World.

(** Extraction writes to the disk only when it signals the failsafe
    stop. *)
Lemma extract_job_data_disk (m : Machine) (id : Z) :
  (extract_job_data urljoin w m id).1 <> EMPTY_JOB_STOP ->
  disk (extract_job_data urljoin w m id).2 = disk m.
Proof.
  unfold extract_job_data.
  destruct (browse w (job_page_url id)) as [|cur soup]; [reflexivity|].
  destruct (is_redirected_to_home base_url cur); [reflexivity|].
  destruct (parse_job_page _ _ soup id _) as [job|]; [|reflexivity].
  destruct (_is_empty_job job); [|reflexivity].
  intros H. contradiction H. reflexivity.
Qed.

(** What the machine holds when an exception leaves the loop. *)
Lemma scrape_loop_raised_disk (max_jobs : Z) (fuel : nat) :
  forall (counter : Z) (m m' : Machine),
    scrape_loop w (extract_job_data urljoin w) fuel max_jobs counter m
    = Raised m' ->
    data_jobs_raw (disk m')
    = DF_jobs (map (fun job => Some (job_id job)) (jobs_scraped m'))
    /\ (state_file (disk m') = state_file (disk m)
        \/ exists state,
             state_file (disk m') = SF_json state
             /\ last_job_id state = Some (current_job_id m')).
Proof.
  induction fuel as [|fuel IH]; intros counter m m'; [discriminate|].
  simpl. destruct (counter <? max_jobs); [|discriminate].
  pose proof (extract_job_data_disk m (current_job_id m)) as Hdisk.
  destruct (extract_job_data_frame urljoin w m (current_job_id m))
    as [_ [_ [Hcur _]]].
  destruct (extract_job_data urljoin w m (current_job_id m))
    as [[| |job] m1] eqn:Hx; cbn [fst snd] in Hdisk, Hcur.
  - intros H. apply save_progress_raised in H as [-> _].
    split; [reflexivity|]. left.
    change (state_file (disk (save_results m1)))
      with (state_file (disk m1)).
    rewrite Hdisk by discriminate. reflexivity.
  - intros H. apply save_progress_raised in H as [-> _].
    split; [reflexivity|]. right.
    apply extract_job_data_empty_stop in Hx. subst m1.
    eexists. split; reflexivity.
  - pose proof (loop_body_job_disk job counter m1) as Hbody.
    destruct (loop_body_job job counter m1) as [m2 counter2].
    cbn [fst] in Hbody. intros H. apply IH in H.
    rewrite Hbody, Hdisk in H by discriminate. exact H.
Qed.

End FeedException.

(** X22. When the feed generator raises on a stopping branch of the
    loop, the exception leaves [scrape_jobs]: no list is returned and the
    statement that saves the cursor after the loop is not run. The
    records collected, of which there is at least one, have been written
    to [data/jobs_raw.json]; the cursor file is as it was before the run,
    or as the failsafe wrote it, pointing at the current ID. *)
Theorem feed_exception_skips_cursor_save
  (urljoin : string -> string -> string) (w : World) (d : Disk)
  (fuel : nat) (max_jobs : Z) (m : Machine) :
  login_ok w = true ->
  scrape_loop w (extract_job_data urljoin w) fuel max_jobs 0
    (login w (__init__ d)).2 = Raised m ->
  scrape_jobs urljoin w fuel max_jobs (__init__ d) = (None, m)
  /\ jobs_scraped m <> []
  /\ feeds_raise w (jobs_scraped m) = true
  /\ data_jobs_raw (disk m)
     = DF_jobs (map (fun job => Some (job_id job)) (jobs_scraped m))
  /\ (state_file (disk m) = state_file d
      \/ exists state,
           state_file (disk m) = SF_json state
           /\ last_job_id state = Some (current_job_id m)).
Proof.
  intros Hlogin Hloop.
  split.
  { unfold scrape_jobs. cbn [login snd] in *. rewrite Hlogin. cbn [negb].
    rewrite Hloop. reflexivity. }
  destruct (scrape_loop_raised urljoin w max_jobs fuel 0 _ m Hloop)
    as [Hne Hfeeds].
  destruct (scrape_loop_raised_disk urljoin w max_jobs fuel 0 _ m Hloop)
    as [Hdata Hstate].
  split; [exact Hne|]. split; [exact Hfeeds|]. split; [exact Hdata|].
  exact Hstate.
Qed.

Lemma feed_exception_skips_cursor_save_witness :
  exists m,
    scrape_jobs simple_urljoin world_A_feeds_fail 10 200 (__init__ no_files)
    = (None, m)
    /\ map job_id (jobs_scraped m) = [795; 796; 797]
    /\ data_jobs_raw (disk m) = DF_jobs [Some 795; Some 796; Some 797]
    /\ state_file (disk m) = SF_absent.
Proof.
  destruct (scrape_loop world_A_feeds_fail
              (extract_job_data simple_urljoin world_A_feeds_fail) 10 200 0
              (login world_A_feeds_fail (__init__ no_files)).2)
    as [m | m | m] eqn:Hloop;
    [vm_compute in Hloop; discriminate Hloop | |
     vm_compute in Hloop; discriminate Hloop].
  exists m.
  destruct (feed_exception_skips_cursor_save simple_urljoin
              world_A_feeds_fail no_files 10 200 m eq_refl Hloop)
    as [Hrun _].
  split; [exact Hrun|].
  vm_compute in Hloop. apply (f_equal machine_of) in Hloop.
  cbn [machine_of] in Hloop. subst m.
  repeat split; vm_compute; reflexivity.
Defined.
